(** * SandSound: the history ledger and the download manager

    A shallow embedding of [src/history.py] and [src/download_manager.py]
    (with the part of [src/downloader.py] the manager drives), and the
    properties of the orchestration core stated over it.

    Conventions of the embedding.
    - Python dicts keyed by strings are [gmap string _] where only lookups
      matter (the ledger, the cancellation tokens) and insertion-ordered
      association lists where iteration order is observable (the task
      registry, parsed JSON objects).
    - Python floats (percentages, byte rates) are exact rationals [Q]; the
      rounding of binary64 arithmetic is not modelled.
    - A call that may raise returns a [result]; the exception classes are
      the ones the handlers of the source distinguish.
    - Threads are modelled by interleaving their atomic steps (a block under
      [self._lock], or a single read of a token). *)

From Stdlib Require Import ZArith QArith Qround List String Ascii Bool Lia.
From stdpp Require Import gmap strings list fin_maps pretty.

Local Open Scope string_scope.

(** ** Exceptions *)

Inductive exn :=
  | JSONDecodeError
  | IOError
  | KeyError (key : string)
  | AttributeError
  | TypeError
  | ValueError
  | UnicodeDecodeError
  | Exception (msg : string).

Inductive result (A : Type) :=
  | Ok (a : A)
  | Raise (e : exn).
Arguments Ok {A} a.
Arguments Raise {A} e.

#[global] Instance result_ret : MRet result := λ A a, Ok a.
#[global] Instance result_bind : MBind result := λ A B k r,
  match r with
  | Ok a => k a
  | Raise e => Raise e
  end.

(** ** History ledger ([src/history.py]) *)

Module History.

(** What [json.load] returns. An object carries the items of the resulting
    dict in order. *)
#[warnings="-register-all"] Inductive json :=
  | JNull
  | JBool (b : bool)
  | JNum (q : Q)
  | JStr (s : string)
  | JArr (l : list json)
  | JObj (items : list (string * json)).

(** [d.get(k)] / [k in d] on the items of a dict. *)
Fixpoint dict_get (k : string) (items : list (string * json)) : option json :=
  match items with
  | [] => None
  | (k', v) :: rest => if String.eqb k k' then Some v else dict_get k rest
  end.

(** [d[k]], raising [KeyError]. *)
Definition dict_index (k : string) (items : list (string * json)) : result json :=
  match dict_get k items with
  | Some v => Ok v
  | None => Raise (KeyError k)
  end.

(** The dataclass fields are not type-checked at run time: a loaded record
    holds whatever the file held. *)
Record DownloadedVideo := {
  video_id : json;
  dv_title : json;
  downloaded_at : json;
  format : json;
  quality : json;
}.

Record PlaylistRecord := {
  playlist_id : json;
  playlist_url : json;
  pr_title : json;
  last_downloaded : json;
  videos : gmap string DownloadedVideo;
}.

Record DownloadHistory := {
  _playlists : gmap string PlaylistRecord;
  _single_videos : gmap string DownloadedVideo;
}.

Definition empty_history : DownloadHistory :=
  {| _playlists := ∅; _single_videos := ∅ |}.

Definition DownloadedVideo_fields : list string :=
  ["video_id"; "title"; "downloaded_at"; "format"; "quality"].

(** [DownloadedVideo( **v_data)]: [v_data] must be a mapping whose keys are
    exactly the five field names, else [TypeError]. *)
Definition DownloadedVideo_from_kwargs (v_data : json) : result DownloadedVideo :=
  match v_data with
  | JObj items =>
      if forallb (fun kv => existsb (String.eqb (fst kv)) DownloadedVideo_fields) items
      then
        match dict_get "video_id" items, dict_get "title" items,
              dict_get "downloaded_at" items, dict_get "format" items,
              dict_get "quality" items with
        | Some a, Some b, Some c, Some d, Some e =>
            Ok {| video_id := a; dv_title := b; downloaded_at := c;
                  format := d; quality := e |}
        | _, _, _, _, _ => Raise TypeError
        end
      else Raise TypeError
  | _ => Raise TypeError
  end.

(** [x.get(key, {}).items()]: [x] must have [.get] and what it returns must
    have [.items], else [AttributeError]. *)
Definition get_items (key : string) (x : json) : result (list (string * json)) :=
  match x with
  | JObj items =>
      match dict_get key items with
      | None => Ok []
      | Some (JObj sub) => Ok sub
      | Some _ => Raise AttributeError
      end
  | _ => Raise AttributeError
  end.

(** The loop [for vid, v_data in ...: acc[vid] = DownloadedVideo( **v_data)]. *)
Fixpoint load_videos (items : list (string * json))
    (acc : gmap string DownloadedVideo) : result (gmap string DownloadedVideo) :=
  match items with
  | [] => Ok acc
  | (vid, v_data) :: rest =>
      v ← DownloadedVideo_from_kwargs v_data;
      load_videos rest (<[vid := v]> acc)
  end.

(** [data[key]] with a string key: [KeyError] on a dict without the key,
    [TypeError] on anything that is not a dict. *)
Definition subscript (data : json) (key : string) : result json :=
  match data with
  | JObj items => dict_index key items
  | _ => Raise TypeError
  end.

(** [PlaylistRecord.from_dict] *)
Definition from_dict (data : json) : result PlaylistRecord :=
  vitems ← get_items "videos" data;
  vs ← load_videos vitems ∅;
  a ← subscript data "playlist_id";
  b ← subscript data "playlist_url";
  c ← subscript data "title";
  d ← subscript data "last_downloaded";
  Ok {| playlist_id := a; playlist_url := b; pr_title := c;
        last_downloaded := d; videos := vs |}.

Fixpoint load_playlists (items : list (string * json))
    (acc : gmap string PlaylistRecord) : result (gmap string PlaylistRecord) :=
  match items with
  | [] => Ok acc
  | (pid, p_data) :: rest =>
      p ← from_dict p_data;
      load_playlists rest (<[pid := p]> acc)
  end.

(** What is found at [self._history_path]: nothing, or the outcome of
    [open] followed by [json.load]. *)
Inductive history_file :=
  | Missing
  | ReadFails (e : exn)
  | Parsed (data : json).

(** The body of the [try] in [_load]. *)
Definition load_body (self : DownloadHistory) (file : history_file)
    : result DownloadHistory :=
  match file with
  | Missing => Ok self
  | ReadFails e => Raise e
  | Parsed data =>
      pitems ← get_items "playlists" data;
      ps ← load_playlists pitems (_playlists self);
      sitems ← get_items "single_videos" data;
      ss ← load_videos sitems (_single_videos self);
      Ok {| _playlists := ps; _single_videos := ss |}
  end.

(** [except (json.JSONDecodeError, IOError, KeyError)] *)
Definition load_handler_catches (e : exn) : bool :=
  match e with
  | JSONDecodeError | IOError | KeyError _ => true
  | _ => false
  end.

Definition _load (self : DownloadHistory) (file : history_file)
    : result DownloadHistory :=
  match load_body self file with
  | Ok h => Ok h
  | Raise e => if load_handler_catches e then Ok empty_history else Raise e
  end.

(** [DownloadHistory.__init__] once the path is chosen. *)
Definition __init__ (file : history_file) : result DownloadHistory :=
  _load empty_history file.

(** Python truthiness of an [Optional[str]]. *)
Definition truthy (o : option string) : bool :=
  match o with
  | Some s => negb (String.eqb s "")
  | None => false
  end.

Definition or_default (o : option string) (d : string) : string :=
  match o with
  | Some s => if String.eqb s "" then d else s
  | None => d
  end.

(** [add_video_download]; [now] is [datetime.now().isoformat()]. The
    closing [_save] writes the ledger out and leaves it as it is. *)
Definition add_video_download (self : DownloadHistory) (now : string)
    (vid title format_type qual : string)
    (pid purl ptitle : option string) : DownloadHistory :=
  let video := {| video_id := JStr vid; dv_title := JStr title;
                  downloaded_at := JStr now; format := JStr format_type;
                  quality := JStr qual |} in
  match pid with
  | Some p =>
      if truthy pid then
        let rec0 :=
          match _playlists self !! p with
          | Some r => r
          | None => {| playlist_id := JStr p;
                       playlist_url := JStr (or_default purl "");
                       pr_title := JStr (or_default ptitle "Unknown Playlist");
                       last_downloaded := JStr now;
                       videos := ∅ |}
          end in
        let rec1 := {| playlist_id := playlist_id rec0;
                       playlist_url := playlist_url rec0;
                       pr_title := pr_title rec0;
                       last_downloaded := JStr now;
                       videos := <[vid := video]> (videos rec0) |} in
        {| _playlists := <[p := rec1]> (_playlists self);
           _single_videos := _single_videos self |}
      else
        {| _playlists := _playlists self;
           _single_videos := <[vid := video]> (_single_videos self) |}
  | None =>
      {| _playlists := _playlists self;
         _single_videos := <[vid := video]> (_single_videos self) |}
  end.

Definition get_downloaded_video_ids (self : DownloadHistory) (pid : string)
    : gset string :=
  match _playlists self !! pid with
  | Some r => dom (videos r)
  | None => ∅
  end.

Definition get_new_videos (self : DownloadHistory) (pid : string)
    (current_video_ids : list string) : list string :=
  let downloaded := get_downloaded_video_ids self pid in
  filter (λ vid, vid ∉ downloaded) current_video_ids.

Definition is_video_downloaded (self : DownloadHistory) (vid : string)
    (pid : option string) : bool :=
  match pid with
  | Some p =>
      if truthy pid then
        match _playlists self !! p with
        | Some r => bool_decide (is_Some (videos r !! vid))
        | None => bool_decide (is_Some (_single_videos self !! vid))
        end
      else bool_decide (is_Some (_single_videos self !! vid))
  | None => bool_decide (is_Some (_single_videos self !! vid))
  end.

(** *** Persistence and removal *)

(** [asdict(v)] for a [DownloadedVideo] *)
Definition asdict (v : DownloadedVideo) : json :=
  JObj [("video_id", video_id v); ("title", dv_title v);
        ("downloaded_at", downloaded_at v); ("format", format v);
        ("quality", quality v)].

(** [PlaylistRecord.to_dict]. The items of a Python dict come out in
    insertion order; the order is not kept in the ledger and does not
    matter to [_load]. *)
Definition to_dict (p : PlaylistRecord) : json :=
  JObj [("playlist_id", playlist_id p); ("playlist_url", playlist_url p);
        ("title", pr_title p); ("last_downloaded", last_downloaded p);
        ("videos", JObj (prod_map id asdict <$> map_to_list (videos p)))].

(** The [data] that [_save] hands to [json.dump] *)
Definition save_data (self : DownloadHistory) : json :=
  JObj [("playlists", JObj (prod_map id to_dict <$> map_to_list (_playlists self)));
        ("single_videos",
         JObj (prod_map id asdict <$> map_to_list (_single_videos self)))].

(** [_save] when the write goes through: what a later [json.load] of the
    file returns. *)
Definition _save (self : DownloadHistory) : history_file :=
  Parsed (save_data self).

(** [get_playlist_record] *)
Definition get_playlist_record (self : DownloadHistory) (pid : string)
    : option PlaylistRecord :=
  _playlists self !! pid.

(** [clear_playlist] *)
Definition clear_playlist (self : DownloadHistory) (pid : string) : DownloadHistory :=
  match _playlists self !! pid with
  | Some _ => {| _playlists := delete pid (_playlists self);
                 _single_videos := _single_videos self |}
  | None => self
  end.

(** [clear_all] *)
Definition clear_all (self : DownloadHistory) : DownloadHistory :=
  {| _playlists := ∅; _single_videos := ∅ |}.

End History.

(** ** Text helpers: the [str] methods and the float conversions used by
    [_sum_speeds] *)

Module Text.

(** [str.isspace] on the ASCII range. *)
Definition isspace (c : ascii) : bool :=
  let n := nat_of_ascii c in
  ((9 <=? n)%nat && (n <=? 13)%nat) || ((28 <=? n)%nat && (n <=? 32)%nat).

Fixpoint lstrip (s : string) : string :=
  match s with
  | String c rest => if isspace c then lstrip rest else s
  | EmptyString => EmptyString
  end.

(** [s.strip()] *)
Definition strip (s : string) : string :=
  String.rev (lstrip (String.rev (lstrip s))).

(** [s.endswith(suffix)] *)
Definition endswith (s suffix : string) : bool :=
  String.prefix (String.rev suffix) (String.rev s).

(** [s[:-n]] for [0 < n] *)
Definition drop_last (n : nat) (s : string) : string :=
  String.substring 0 (String.length s - n) s.

Definition digit_val (c : ascii) : option Z :=
  let n := nat_of_ascii c in
  if (48 <=? n)%nat && (n <=? 57)%nat then Some (Z.of_nat (n - 48)) else None.

(** Value of a run of decimal digits, continuing from [acc]; [None] when a
    character is not a digit. *)
Fixpoint digits_val (s : string) (acc : Z) : option Z :=
  match s with
  | EmptyString => Some acc
  | String c rest =>
      match digit_val c with
      | Some d => digits_val rest (10 * acc + d)
      | None => None
      end
  end.

(** Splits at the first ['.']: the text before it and, when there is one,
    the text after it. *)
Fixpoint split_point (s : string) : string * option string :=
  match s with
  | EmptyString => (EmptyString, None)
  | String c rest =>
      if Ascii.eqb c "."%char then (EmptyString, Some rest)
      else let '(a, b) := split_point rest in (String c a, b)
  end.

Definition unsigned_decimal (s : string) : option Q :=
  let '(ip, fp) := split_point s in
  let fp := default EmptyString fp in
  if (String.length ip + String.length fp =? 0)%nat then None
  else
    match digits_val ip 0, digits_val fp 0 with
    | Some i, Some f =>
        let scale := (10 ^ Z.of_nat (String.length fp))%Z in
        Some (Qmake (i * scale + f) (Z.to_pos scale))
    | _, _ => None
    end.

(** [float(s)] on plain decimal literals: optional surrounding blanks, an
    optional sign, digits with an optional fractional part. This is the
    shape the executor formats ([f"{x:.1f} MB/s"]); the other spellings
    Python accepts (exponents, underscores, [inf], [nan]) have no rational
    value and are not modelled: they are reported as [ValueError] too. *)
Definition float (s : string) : result Q :=
  let s := strip s in
  let r :=
    match s with
    | String "-" rest => Qopp <$> unsigned_decimal rest
    | String "+" rest => unsigned_decimal rest
    | _ => unsigned_decimal s
    end in
  match r with
  | Some q => Ok q
  | None => Raise ValueError
  end.

(** Nearest integer, ties to even: the rounding of [format] for floats. *)
Definition round_half_even (q : Q) : Z :=
  let f := Qfloor q in
  let r := (q - inject_Z f)%Q in
  match (r ?= 1 # 2)%Q with
  | Lt => f
  | Gt => (f + 1)%Z
  | Eq => if Z.even f then f else (f + 1)%Z
  end.

(** [f"{q:.0f}"] for [0 <= q] *)
Definition format_0f (q : Q) : string :=
  pretty (round_half_even q).

(** [f"{q:.1f}"] for [0 <= q] *)
Definition format_1f (q : Q) : string :=
  let n := round_half_even (q * 10) in
  pretty (n / 10)%Z +:+ "." +:+ pretty (n mod 10)%Z.

End Text.

(** ** Tasks and the progress aggregator ([src/download_manager.py]) *)

Module Manager.
Import Text.

Inductive TaskStatus := QUEUED | ACTIVE | COMPLETED | FAILED | CANCELLED.

#[global] Instance TaskStatus_eq_dec : EqDecision TaskStatus.
Proof. solve_decision. Defined.

Record DownloadTask := {
  task_id : string;
  url : string;
  title : string;
  format_type : string;
  quality : string;
  status : TaskStatus;
  progress : Q;
  speed : string;
  eta : string;
  error : option string;
}.

Record AggregateProgress := {
  total_tasks : nat;
  completed_tasks : nat;
  active_tasks : nat;
  queued_tasks : nat;
  failed_tasks : nat;
  overall_progress : Q;
  total_speed : string;
  active_titles : list string;
}.

(** [sum(1 for t in tasks if p(t))] *)
Definition count (p : DownloadTask → bool) (tasks : list DownloadTask) : nat :=
  length (List.filter p tasks).

Definition has_status (s : TaskStatus) (t : DownloadTask) : bool :=
  bool_decide (status t = s).

(** [t.status in (FAILED, CANCELLED)] *)
Definition is_failed_or_cancelled (t : DownloadTask) : bool :=
  has_status FAILED t || has_status CANCELLED t.

(** The loop accumulating [total_progress]: only COMPLETED and ACTIVE tasks
    add anything. *)
Definition add_progress (total_progress : Q) (t : DownloadTask) : Q :=
  if has_status COMPLETED t then (total_progress + 100)%Q
  else if has_status ACTIVE t then (total_progress + progress t)%Q
  else total_progress.

Definition total_progress (tasks : list DownloadTask) : Q :=
  fold_left add_progress tasks 0%Q.

(** One iteration of the loop of [_sum_speeds]. *)
Definition add_speed (total_bytes : Q) (t : DownloadTask) : result Q :=
  if negb (has_status ACTIVE t) || String.eqb (speed t) "" then Ok total_bytes
  else
    let speed := strip (speed t) in
    if endswith speed "MB/s" then
      x ← float (strip (drop_last 4 speed));
      Ok (total_bytes + x * 1024 * 1024)%Q
    else if endswith speed "KB/s" then
      x ← float (strip (drop_last 4 speed));
      Ok (total_bytes + x * 1024)%Q
    else if endswith speed "B/s" then
      x ← float (strip (drop_last 3 speed));
      Ok (total_bytes + x)%Q
    else Ok total_bytes.

Fixpoint sum_bytes (tasks : list DownloadTask) (total_bytes : Q) : result Q :=
  match tasks with
  | [] => Ok total_bytes
  | t :: rest => b ← add_speed total_bytes t; sum_bytes rest b
  end.

(** The formatting at the end of [_sum_speeds]. *)
Definition format_speed (total_bytes : Q) : string :=
  if Qlt_le_dec (1024 * 1024) total_bytes then
    format_1f (total_bytes / (1024 * 1024)) +:+ " MB/s"
  else if Qlt_le_dec 1024 total_bytes then
    format_1f (total_bytes / 1024) +:+ " KB/s"
  else if Qlt_le_dec 0 total_bytes then
    format_0f total_bytes +:+ " B/s"
  else "".

Definition _sum_speeds (tasks : list DownloadTask) : result string :=
  total_bytes ← sum_bytes tasks 0%Q;
  Ok (format_speed total_bytes).

(** [_notify_aggregate_update] from the snapshot [tasks] on, with a
    registered callback: [None] when it returns without calling it, else
    the aggregate it passes. *)
Definition aggregate (tasks : list DownloadTask) : result (option AggregateProgress) :=
  match tasks with
  | [] => Ok None
  | _ =>
      let completed := count (has_status COMPLETED) tasks in
      let active := count (has_status ACTIVE) tasks in
      let queued := count (has_status QUEUED) tasks in
      let failed := count is_failed_or_cancelled tasks in
      let overall := (total_progress tasks / inject_Z (Z.of_nat (length tasks)))%Q in
      total_speed ← _sum_speeds tasks;
      Ok (Some {| total_tasks := length tasks;
                  completed_tasks := completed;
                  active_tasks := active;
                  queued_tasks := queued;
                  failed_tasks := failed;
                  overall_progress := overall;
                  total_speed := total_speed;
                  active_titles := title <$> List.filter (has_status ACTIVE) tasks |})
  end.

(** *** The manager object *)

(** An insertion-ordered dict keyed by strings: [d[k] = v] keeps the place
    of an existing key and appends a new one. *)
Section Dict.
Context {V : Type}.

Fixpoint dict_lookup (k : string) (d : list (string * V)) : option V :=
  match d with
  | [] => None
  | (k', v) :: rest => if String.eqb k k' then Some v else dict_lookup k rest
  end.

Fixpoint dict_set (k : string) (v : V) (d : list (string * V)) : list (string * V) :=
  match d with
  | [] => [(k, v)]
  | (k', v') :: rest =>
      if String.eqb k k' then (k', v) :: rest else (k', v') :: dict_set k v rest
  end.

(** Mutation of the object stored under [k], if there is one. *)
Fixpoint dict_alter (f : V → V) (k : string) (d : list (string * V)) : list (string * V) :=
  match d with
  | [] => []
  | (k', v) :: rest =>
      if String.eqb k k' then (k', f v) :: rest else (k', v) :: dict_alter f k rest
  end.

Definition dict_values (d : list (string * V)) : list V := snd <$> d.
Definition dict_keys (d : list (string * V)) : list string := fst <$> d.
End Dict.

Definition set_status (s : TaskStatus) (t : DownloadTask) : DownloadTask :=
  {| task_id := task_id t; url := url t; title := title t;
     format_type := format_type t; quality := quality t;
     status := s; progress := progress t; speed := speed t; eta := eta t;
     error := error t |}.

Definition set_progress (p : Q) (t : DownloadTask) : DownloadTask :=
  {| task_id := task_id t; url := url t; title := title t;
     format_type := format_type t; quality := quality t;
     status := status t; progress := p; speed := speed t; eta := eta t;
     error := error t |}.

Definition set_speed_eta (sp et : string) (t : DownloadTask) : DownloadTask :=
  {| task_id := task_id t; url := url t; title := title t;
     format_type := format_type t; quality := quality t;
     status := status t; progress := progress t; speed := sp; eta := et;
     error := error t |}.

Definition set_error (e : option string) (t : DownloadTask) : DownloadTask :=
  {| task_id := task_id t; url := url t; title := title t;
     format_type := format_type t; quality := quality t;
     status := status t; progress := progress t; speed := speed t; eta := eta t;
     error := e |}.

(** The pool a manager holds: its bound and the work items handed to it, by
    task id, in submission order. *)
Record ThreadPoolExecutor := {
  pool_max_workers : Z;
  work_items : list string;
}.

(** The fields of a [DownloadManager]. [_futures] is written and cleared but
    never read: only its keys are kept. A token is the boolean of its
    [threading.Event]. *)
Record DownloadManager := {
  _max_workers : Z;
  _executor : option ThreadPoolExecutor;
  _tasks : list (string * DownloadTask);
  _futures : gset string;
  _cancel_flags : gmap string bool;
  _is_running : bool;
}.

(** [DownloadManager.__init__] *)
Definition __init__ (max_workers : Z) : DownloadManager :=
  {| _max_workers := Z.min (Z.max 1 max_workers) 8;
     _executor := None;
     _tasks := [];
     _futures := ∅;
     _cancel_flags := ∅;
     _is_running := false |}.

(** [self._executor.submit(...)] *)
Definition pool_submit (tid : string) (ex : option ThreadPoolExecutor)
    : option ThreadPoolExecutor :=
  (λ p, {| pool_max_workers := pool_max_workers p;
           work_items := work_items p ++ [tid] |}) <$> ex.

(** One iteration of the loop of [submit_tasks]. *)
Definition submit_one (self : DownloadManager) (task : DownloadTask) : DownloadManager :=
  {| _max_workers := _max_workers self;
     _executor := pool_submit (task_id task) (_executor self);
     _tasks := dict_set (task_id task) task (_tasks self);
     _futures := {[ task_id task ]} ∪ _futures self;
     _cancel_flags := <[task_id task := false]> (_cancel_flags self);
     _is_running := _is_running self |}.

(** [submit_tasks]: one block under the lock. *)
Definition submit_tasks (self : DownloadManager) (tasks : list DownloadTask)
    : DownloadManager :=
  let self1 :=
    {| _max_workers := _max_workers self;
       _executor := Some {| pool_max_workers := _max_workers self; work_items := [] |};
       _tasks := _tasks self;
       _futures := _futures self;
       _cancel_flags := _cancel_flags self;
       _is_running := true |} in
  fold_left submit_one tasks self1.

(** [self._cancel_flags.get(task_id, threading.Event()).is_set()] *)
Definition cancel_requested (self : DownloadManager) (tid : string) : bool :=
  default false (_cancel_flags self !! tid).

Definition with_tasks (ts : list (string * DownloadTask)) (self : DownloadManager)
    : DownloadManager :=
  {| _max_workers := _max_workers self;
     _executor := _executor self;
     _tasks := ts;
     _futures := _futures self;
     _cancel_flags := _cancel_flags self;
     _is_running := _is_running self |}.

(** [if task.status in (QUEUED, ACTIVE): task.status = CANCELLED] *)
Definition cancel_if_pending (t : DownloadTask) : DownloadTask :=
  if has_status QUEUED t || has_status ACTIVE t then set_status CANCELLED t else t.

(** [cancel_all] *)
Definition cancel_all (self : DownloadManager) : DownloadManager :=
  {| _max_workers := _max_workers self;
     _executor := None;
     _tasks := prod_map id cancel_if_pending <$> _tasks self;
     _futures := _futures self;
     _cancel_flags := (λ _, true) <$> _cancel_flags self;
     _is_running := false |}.

(** [cancel_task] *)
Definition cancel_task (self : DownloadManager) (tid : string) : DownloadManager :=
  {| _max_workers := _max_workers self;
     _executor := _executor self;
     _tasks := dict_alter cancel_if_pending tid (_tasks self);
     _futures := _futures self;
     _cancel_flags := alter (λ _, true) tid (_cancel_flags self);
     _is_running := _is_running self |}.

Definition is_running (self : DownloadManager) : bool := _is_running self.

Definition get_task (self : DownloadManager) (tid : string) : option DownloadTask :=
  dict_lookup tid (_tasks self).

Definition get_completed_ids (self : DownloadManager) : gset string :=
  list_to_set (fst <$> List.filter (λ kv, has_status COMPLETED (snd kv)) (_tasks self)).

(** [clear] *)
Definition clear (self : DownloadManager) : DownloadManager :=
  let self1 := cancel_all self in
  {| _max_workers := _max_workers self1;
     _executor := _executor self1;
     _tasks := [];
     _futures := ∅;
     _cancel_flags := ∅;
     _is_running := _is_running self1 |}.

(** [t.status in (COMPLETED, FAILED, CANCELLED)] *)
Definition is_terminal (t : DownloadTask) : bool :=
  has_status COMPLETED t || has_status FAILED t || has_status CANCELLED t.

(** The test of [_on_task_done] *)
Definition all_done (self : DownloadManager) : bool :=
  forallb is_terminal (dict_values (_tasks self)).

(** [_notify_aggregate_update]: the snapshot [list(self._tasks.values())]
    taken under the lock, then the aggregate computed from it. *)
Definition _notify_aggregate_update (self : DownloadManager)
    : result (option AggregateProgress) :=
  aggregate (dict_values (_tasks self)).


(** [len(l)] as the float the aggregate divides by *)
Definition qlen {A} (l : list A) : Q := inject_Z (Z.of_nat (length l)).

End Manager.


(** ** Workers: [_download_task], [Downloader.download] and [_on_task_done]
    as interleaved atomic steps

    A pool thread runs [_download_task] on a work item and then the
    done-callback of its future, [_on_task_done]. Its atomic steps are the
    blocks under [self._lock] and the reads of the task's token; anything
    may happen between two of them. The task object a worker mutates is the
    one the registry holds under its id. The notifications sent between the
    steps ([_notify_task_update], [_notify_aggregate_update]) do not touch
    the manager and are left out; [on_batch_complete] is counted. The
    downloader's own [_cancel_flag] is cleared by [download] and set only by
    [Downloader.cancel], which the manager never calls: it stays clear.
    [ThreadPoolExecutor.shutdown(wait=False)] lets the work items already
    submitted run, so [cancel_all] does not remove workers. *)

Module Workers.
Import Manager.

(** [DownloadStatus] and [DownloadProgress] of [src/downloader.py] *)
Inductive DownloadStatus :=
  | PENDING | DOWNLOADING | PROCESSING | DL_COMPLETED | DL_FAILED | DL_CANCELLED.

Record DownloadProgress := {
  dp_status : DownloadStatus;
  dp_title : string;
  dp_progress : Q;
  dp_speed : string;
  dp_eta : string;
  dp_filename : string;
  dp_error : option string;
}.

(** What the engine passes to [progress_hook]: its status word and the
    figures the hook derives from it (percentage, formatted speed and
    remaining time). *)
Record hook_payload := {
  hp_status : string;
  hp_progress : Q;
  hp_speed : string;
  hp_eta : string;
  hp_filename : string;
}.

(** The behaviour of the external engine during one [download] call:
    whether [extract_info] raises, the hook invocations of
    [ydl.download], and whether [ydl.download] raises in the end. *)
Record engine_run := {
  extract_title : string;
  extract_error : option string;
  hooks : list hook_payload;
  download_error : option string;
}.

(** The [DownloadProgress] built by [progress_hook] *)
Definition hook_event (title : string) (d : hook_payload) : DownloadProgress :=
  {| dp_status :=
       if String.eqb (hp_status d) "finished" then PROCESSING
       else if String.eqb (hp_status d) "error" then DL_FAILED
       else DOWNLOADING;
     dp_title := title;
     dp_progress := hp_progress d;
     dp_speed := hp_speed d;
     dp_eta := hp_eta d;
     dp_filename := hp_filename d;
     dp_error := None |}.

(** The four places where [download] invokes the progress callback *)
Inductive callback_site :=
  | AtPending
  | AtHook (d : hook_payload)
  | AtCompleted
  | AtFailed (error_msg : string).

Definition site_event (title : string) (k : callback_site) : DownloadProgress :=
  match k with
  | AtPending =>
      {| dp_status := PENDING; dp_title := title; dp_progress := 0;
         dp_speed := ""; dp_eta := ""; dp_filename := ""; dp_error := None |}
  | AtHook d => hook_event title d
  | AtCompleted =>
      {| dp_status := DL_COMPLETED; dp_title := title; dp_progress := 100;
         dp_speed := ""; dp_eta := ""; dp_filename := ""; dp_error := None |}
  | AtFailed msg =>
      {| dp_status := DL_FAILED; dp_title := title; dp_progress := 0;
         dp_speed := ""; dp_eta := ""; dp_filename := ""; dp_error := Some msg |}
  end.

(** The block under the lock in [progress_callback] *)
Definition apply_progress (p : DownloadProgress) (t : DownloadTask) : DownloadTask :=
  let t1 := set_speed_eta (dp_speed p) (dp_eta p) (set_progress (dp_progress p) t) in
  match dp_status p with
  | DL_COMPLETED => set_progress 100 (set_status COMPLETED t1)
  | DL_FAILED => set_error (dp_error p) (set_status FAILED t1)
  | _ => t1
  end.

(** How the call of [self._base_downloader.download] ended *)
Inductive outcome :=
  | Returned (success : bool)
  | Raised (msg : string).

(** The blocks under the lock that close [_download_task] *)
Definition finish (self : DownloadManager) (tid : string) (o : outcome) : DownloadManager :=
  match o with
  | Returned true =>
      with_tasks (dict_alter (λ t, set_progress 100 (set_status COMPLETED t)) tid (_tasks self)) self
  | Returned false =>
      with_tasks (dict_alter (set_status FAILED) tid (_tasks self)) self
  | Raised msg =>
      if cancel_requested self tid
      then with_tasks (dict_alter (set_status CANCELLED) tid (_tasks self)) self
      else with_tasks (dict_alter (λ t, set_error (Some msg) (set_status FAILED t)) tid (_tasks self)) self
  end.

(** Where a worker stands in [_download_task] and the done-callback of its
    future. Each constructor names the atomic step it takes next. *)
Inductive pc :=
  | PStart                               (* queued in the pool *)
  | PCheck (k : callback_site)           (* reads the token in [progress_callback] *)
  | PUpdate (k : callback_site)          (* takes the lock in [progress_callback] *)
  | PFinish (o : outcome)                (* takes the lock after [download] *)
  | PDoneCheck                           (* takes the lock in [_on_task_done] *)
  | PDoneFire (all_done : bool)          (* acts on [all_done] *)
  | PExit.

Record worker := {
  w_pc : pc;
  w_title : string;
  w_hooks : list hook_payload;           (* hook invocations still to come *)
  w_download_error : option string;
  w_aborted : bool;                      (* a callback found the token set and raised *)
  w_outcome : option outcome;            (* how [download] ended, once it has *)
}.

Definition new_worker (e : engine_run) : worker :=
  {| w_pc := PStart; w_title := "Unknown"; w_hooks := hooks e;
     w_download_error := download_error e; w_aborted := false; w_outcome := None |}.

Record system := {
  mgr : DownloadManager;
  queue : list string;                   (* work items no pool thread has taken yet *)
  workers : gmap string worker;
  engines : string → engine_run;
  batch_complete_calls : nat;            (* invocations of [on_batch_complete] *)
}.

Definition busy (w : worker) : bool :=
  match w_pc w with
  | PStart | PExit => false
  | _ => true
  end.

Definition busy_count (s : system) : nat :=
  length (List.filter (λ kw, busy (snd kw)) (map_to_list (workers s))).

(** What [download] does after a callback at [k] returned normally *)
Definition after_callback (k : callback_site) (w : worker) : worker :=
  match k with
  | AtPending | AtHook _ =>
      match w_hooks w with
      | d :: rest =>
          {| w_pc := PCheck (AtHook d); w_title := w_title w; w_hooks := rest;
             w_download_error := w_download_error w; w_aborted := w_aborted w;
             w_outcome := w_outcome w |}
      | [] =>
          {| w_pc := PCheck (match w_download_error w with
                             | Some msg => AtFailed msg
                             | None => AtCompleted
                             end);
             w_title := w_title w; w_hooks := [];
             w_download_error := w_download_error w; w_aborted := w_aborted w;
             w_outcome := w_outcome w |}
      end
  | AtCompleted =>
      {| w_pc := PFinish (Returned true); w_title := w_title w; w_hooks := w_hooks w;
         w_download_error := w_download_error w; w_aborted := w_aborted w;
         w_outcome := Some (Returned true) |}
  | AtFailed _ =>
      {| w_pc := PFinish (Returned false); w_title := w_title w; w_hooks := w_hooks w;
         w_download_error := w_download_error w; w_aborted := w_aborted w;
         w_outcome := Some (Returned false) |}
  end.

(** What [download] does when the callback at [k] raises: inside the [try]
    the handler reports the failure through the callback; inside the
    handler the exception leaves [download]. *)
Definition after_raise (k : callback_site) (msg : string) (w : worker) : worker :=
  match k with
  | AtFailed _ =>
      {| w_pc := PFinish (Raised msg); w_title := w_title w; w_hooks := w_hooks w;
         w_download_error := w_download_error w; w_aborted := true;
         w_outcome := Some (Raised msg) |}
  | _ =>
      {| w_pc := PCheck (AtFailed msg); w_title := w_title w; w_hooks := w_hooks w;
         w_download_error := w_download_error w; w_aborted := true;
         w_outcome := w_outcome w |}
  end.

Definition with_pc (p : pc) (w : worker) : worker :=
  {| w_pc := p; w_title := w_title w; w_hooks := w_hooks w;
     w_download_error := w_download_error w; w_aborted := w_aborted w;
     w_outcome := w_outcome w |}.

(** One atomic step of the worker of task [tid], from a program point other
    than [PStart]: the new manager, the new worker and whether
    [on_batch_complete] was invoked. *)
Definition worker_step (self : DownloadManager) (tid : string) (w : worker)
    : DownloadManager * worker * bool :=
  match w_pc w with
  | PStart | PExit => (self, w, false)
  | PCheck k =>
      if cancel_requested self tid
      then (self, after_raise k "Download cancelled" w, false)
      else (self, with_pc (PUpdate k) w, false)
  | PUpdate k =>
      (with_tasks (dict_alter (apply_progress (site_event (w_title w) k)) tid (_tasks self)) self,
       after_callback k w, false)
  | PFinish o => (finish self tid o, with_pc PDoneCheck w, false)
  | PDoneCheck => (self, with_pc (PDoneFire (all_done self)) w, false)
  | PDoneFire true =>
      ({| _max_workers := _max_workers self; _executor := _executor self;
          _tasks := _tasks self; _futures := _futures self;
          _cancel_flags := _cancel_flags self; _is_running := false |},
       with_pc PExit w, true)
  | PDoneFire false => (self, with_pc PExit w, false)
  end.

(** A pool thread takes the work item of [tid]: the ACTIVE transition, then
    [download] up to its first callback. *)
Definition worker_start (self : DownloadManager) (tid : string) (e : engine_run) (w : worker)
    : DownloadManager * worker :=
  (with_tasks (dict_alter (set_status ACTIVE) tid (_tasks self)) self,
   match extract_error e with
   | Some msg =>
       {| w_pc := PCheck (AtFailed msg); w_title := "Unknown"; w_hooks := w_hooks w;
          w_download_error := w_download_error w; w_aborted := w_aborted w;
          w_outcome := w_outcome w |}
   | None =>
       {| w_pc := PCheck AtPending; w_title := extract_title e; w_hooks := w_hooks w;
          w_download_error := w_download_error w; w_aborted := w_aborted w;
          w_outcome := w_outcome w |}
   end).

(** What the scheduler lets happen next *)
Inductive event :=
  | Start                                (* a free pool thread takes the next work item *)
  | Step (tid : string)                  (* the worker of [tid] takes its next atomic step *)
  | CancelTask (tid : string)            (* another thread calls [cancel_task] *)
  | CancelAll.                           (* another thread calls [cancel_all] *)

Definition step (s : system) (ev : event) : system :=
  match ev with
  | Start =>
      match queue s with
      | tid :: rest =>
          match workers s !! tid with
          | Some w =>
              match w_pc w with
              | PStart =>
                  if (Z.of_nat (busy_count s) <? _max_workers (mgr s))%Z then
                    let '(m, w') := worker_start (mgr s) tid (engines s tid) w in
                    {| mgr := m; queue := rest; workers := <[tid := w']> (workers s);
                       engines := engines s;
                       batch_complete_calls := batch_complete_calls s |}
                  else s
              | _ => s
              end
          | None => s
          end
      | [] => s
      end
  | Step tid =>
      match workers s !! tid with
      | Some w =>
          let '(m, w', fired) := worker_step (mgr s) tid w in
          {| mgr := m; queue := queue s; workers := <[tid := w']> (workers s);
             engines := engines s;
             batch_complete_calls :=
               if fired then S (batch_complete_calls s) else batch_complete_calls s |}
      | None => s
      end
  | CancelTask tid =>
      {| mgr := cancel_task (mgr s) tid; queue := queue s; workers := workers s;
         engines := engines s; batch_complete_calls := batch_complete_calls s |}
  | CancelAll =>
      {| mgr := cancel_all (mgr s); queue := queue s; workers := workers s;
         engines := engines s; batch_complete_calls := batch_complete_calls s |}
  end.

Definition run (schedule : list event) (s : system) : system :=
  fold_left step schedule s.

(** A fresh manager with bound [max_workers], a batch submitted to it, and
    one queued worker per task. *)
Definition launch (max_workers : Z) (tasks : list DownloadTask)
    (engines : string → engine_run) : system :=
  {| mgr := submit_tasks (__init__ max_workers) tasks;
     queue := task_id <$> tasks;
     workers := list_to_map ((λ t, (task_id t, new_worker (engines (task_id t)))) <$> tasks);
     engines := engines;
     batch_complete_calls := 0 |}.

(** Whether the scheduler can let [ev] happen in [s] (a disabled event
    leaves [s] as it is). *)
Definition enabled (s : system) (ev : event) : bool :=
  match ev with
  | Start =>
      match queue s with
      | tid :: _ =>
          match workers s !! tid with
          | Some w =>
              match w_pc w with
              | PStart => (Z.of_nat (busy_count s) <? _max_workers (mgr s))%Z
              | _ => false
              end
          | None => false
          end
      | [] => false
      end
  | Step tid =>
      match workers s !! tid with
      | Some w => busy w
      | None => false
      end
  | CancelTask _ | CancelAll => true
  end.

Fixpoint all_enabled (schedule : list event) (s : system) : bool :=
  match schedule with
  | [] => true
  | ev :: rest => enabled s ev && all_enabled rest (step s ev)
  end.


(** *** The invariant behind the precedence of cancellation *)




(** *** Further invariants of a run *)









End Workers.

(** ** The aggregator and the submission as the specification words them *)

Module Spec.
Import Text Manager.

(** What a task contributes to the overall progress: 100 when COMPLETED,
    its current percent when ACTIVE, 0 when QUEUED, FAILED or CANCELLED. *)
Definition contribution (t : DownloadTask) : Q :=
  match status t with
  | COMPLETED => 100
  | ACTIVE => progress t
  | QUEUED | FAILED | CANCELLED => 0
  end.

(** Arithmetic mean *)
Definition mean (xs : list Q) : Q :=
  (fold_right Qplus 0 xs / inject_Z (Z.of_nat (length xs)))%Q.

(** A formatted speed string parsed back to a byte rate: MB/s as
    x 1024 x 1024, KB/s as x 1024, B/s as it is; a string with no such unit
    carries no rate. *)
Definition byte_rate (speed : string) : result Q :=
  let s := strip speed in
  if endswith s "MB/s" then x ← float (strip (drop_last 4 s)); Ok (x * 1024 * 1024)%Q
  else if endswith s "KB/s" then x ← float (strip (drop_last 4 s)); Ok (x * 1024)%Q
  else if endswith s "B/s" then x ← float (strip (drop_last 3 s)); Ok x
  else Ok 0%Q.

(** Total throughput: the byte rates of the ACTIVE tasks, summed and
    formatted again. *)
Definition total_throughput (tasks : list DownloadTask) : result string :=
  rates ← mapM byte_rate (speed <$> List.filter (has_status ACTIVE) tasks);
  Ok (format_speed (fold_left Qplus rates 0%Q)).

(** The task of a batch that ends up stored under [tid]: the last one
    carrying that id. *)
Definition last_with_id (tid : string) (tasks : list DownloadTask) : option DownloadTask :=
  List.find (λ t, String.eqb (task_id t) tid) (rev tasks).

(** [t'] is [t] except that FAILED may stand for CANCELLED and CANCELLED
    for FAILED. *)
Definition same_but_failed_for_cancelled (t t' : DownloadTask) : Prop :=
  t' = t
  ∨ (is_failed_or_cancelled t = true
     ∧ (t' = set_status FAILED t ∨ t' = set_status CANCELLED t)).

End Spec.

(** ** Concrete ledgers, registries and schedules used in the statements *)

Module Scenarios.
Import Manager Workers.

(** A ledger with one standalone record, [solo], and nothing else. *)
Definition standalone_ledger : History.DownloadHistory :=
  History.add_video_download History.empty_history "2024-01-01T00:00:00"
    "solo" "Solo" "mp3" "best" None None None.

Definition ten_ids : list string :=
  ["v0"; "v1"; "v2"; "v3"; "v4"; "v5"; "v6"; "v7"; "v8"; "v9"].

Definition record_in_PL (h : History.DownloadHistory) (vid : string) : History.DownloadHistory :=
  History.add_video_download h "2024-01-01T00:00:00" vid "Title" "mp3" "best"
    (Some "PL") (Some "https://www.youtube.com/playlist?list=PL") (Some "Mix").

(** Four of the ten recorded under collection [PL]. *)
Definition four_of_ten : History.DownloadHistory :=
  fold_left record_in_PL ["v1"; "v4"; "v5"; "v8"] History.empty_history.

Definition task (tid : string) (st : TaskStatus) (pct : Q) (sp : string) : DownloadTask :=
  {| task_id := tid; url := "https://www.youtube.com/watch?v=" +:+ tid;
     title := "Title " +:+ tid; format_type := "mp3"; quality := "best";
     status := st; progress := pct; speed := sp; eta := ""; error := None |}.

Definition queued (tid : string) : DownloadTask := task tid QUEUED 0 "".

(** A manager with a batch in flight: [a] is ACTIVE. *)
Definition manager_in_flight : DownloadManager :=
  with_tasks [("a", task "a" ACTIVE 40 "1.0 MB/s")] (submit_tasks (__init__ 4) [queued "a"]).

(** Two ACTIVE tasks reporting 2.0 MB/s and 500 KB/s. *)
Definition two_speeds : list DownloadTask :=
  [task "a" ACTIVE 10 "2.0 MB/s"; task "b" ACTIVE 20 "500 KB/s"].

(** One task in each status; the two ACTIVE ones report a speed. *)
Definition mixed_registry : list DownloadTask :=
  [task "a" COMPLETED 100 ""; task "b" ACTIVE 30 "2.0 MB/s";
   task "c" QUEUED 0 ""; task "d" FAILED 60 ""; task "e" CANCELLED 80 "";
   task "f" ACTIVE 50 "500 KB/s"].

(** An engine that reports nothing and succeeds. *)
Definition quiet (_ : string) : engine_run :=
  {| extract_title := "Title"; extract_error := None; hooks := [];
     download_error := None |}.


(** Two workers run side by side; both close [_download_task] before either
    done-callback runs. *)
Definition both_finish_then_both_notify : list event :=
  ([Start; Start] ++ replicate 5 (Step "a") ++ replicate 5 (Step "b")
   ++ [Step "a"; Step "a"; Step "b"; Step "b"])%list.

(** One pool thread; [b] is cancelled while still queued. *)
Definition cancel_queued_then_run : list event :=
  ([CancelTask "b"; Start] ++ replicate 7 (Step "a") ++ [Start]
   ++ replicate 5 (Step "b"))%list.


End Scenarios.

(** ** Strings of decimal digits *)

Module Digits.

Definition is_digit (c : ascii) : bool :=
  match Text.digit_val c with
  | Some _ => true
  | None => false
  end.

Fixpoint all_digits (s : string) : bool :=
  match s with
  | EmptyString => true
  | String c rest => is_digit c && all_digits rest
  end.

(** The string starts with a character that is not a blank. *)
Definition starts_nonspace (s : string) : bool :=
  match s with
  | String c _ => negb (Text.isspace c)
  | EmptyString => false
  end.

End Digits.

(** ** The progress hook of [Downloader.download] ([src/downloader.py]) *)

Module Hook.
Import Text Workers.

(** A numeric entry of the dict the engine passes to the hook: the key is
    absent, or holds [None], or holds a number. *)
Inductive entry :=
  | Absent
  | IsNone
  | Num (q : Q).

Record hook_dict := {
  d_status : string;
  d_downloaded_bytes : entry;
  d_total_bytes : entry;
  d_total_bytes_estimate : entry;
  d_speed : entry;
  d_eta : entry;
  d_filename : option string;
}.

(** [key in d] *)
Definition present (e : entry) : bool :=
  match e with
  | Absent => false
  | _ => true
  end.

(** [d[key] > 0]: comparing [None] with a number raises. *)
Definition is_positive (e : entry) : result bool :=
  match e with
  | Num q => Ok (if Qlt_le_dec 0 q then true else false)
  | _ => Raise TypeError
  end.

(** [(d[a] / d[b]) * 100] for a non-zero [d[b]] *)
Definition percent_of (a b : entry) : result Q :=
  match a, b with
  | Num x, Num y => Ok (x / y * 100)%Q
  | _, _ => Raise TypeError
  end.

(** The [progress] computed by [progress_hook] *)
Definition hook_percent (d : hook_dict) : result Q :=
  if present (d_downloaded_bytes d) && present (d_total_bytes d) then
    match is_positive (d_total_bytes d) with
    | Ok true => percent_of (d_downloaded_bytes d) (d_total_bytes d)
    | Ok false => Ok 0%Q
    | Raise e => Raise e
    end
  else if present (d_downloaded_bytes d) && present (d_total_bytes_estimate d) then
    match d_total_bytes_estimate d with
    | Num q =>
        if negb (Qeq_bool q 0) && (if Qlt_le_dec 0 q then true else false)
        then percent_of (d_downloaded_bytes d) (d_total_bytes_estimate d)
        else Ok 0%Q
    | _ => Ok 0%Q
    end
  else Ok 0%Q.

(** The [speed_str] built for a truthy [speed] *)
Definition hook_speed_str (speed : Q) : string :=
  if Qlt_le_dec (1024 * 1024) speed then
    format_1f (speed / (1024 * 1024)) +:+ " MB/s"
  else if Qlt_le_dec 1024 speed then
    format_1f (speed / 1024) +:+ " KB/s"
  else format_0f speed +:+ " B/s".

(** [int(x)]: truncation towards zero *)
Definition int_of (q : Q) : Z :=
  if Qlt_le_dec q 0 then Qceiling q else Qfloor q.

(** [f"{secs:02d}"] for [0 <= secs] *)
Definition two_digits (secs : Z) : string :=
  if (secs <? 10)%Z then "0" +:+ pretty secs else pretty secs.

(** The [eta_str] built for a truthy [eta] *)
Definition hook_eta_str (eta : Q) : string :=
  let n := int_of eta in
  pretty (n / 60)%Z +:+ ":" +:+ two_digits (n mod 60)%Z.

(** [x] is truthy: neither [None] nor zero. *)
Definition truthy_num (e : entry) : option Q :=
  match e with
  | Num q => if Qeq_bool q 0 then None else Some q
  | _ => None
  end.

(** What [progress_hook] derives from the dict before it calls the
    callback. *)
Definition payload_of_dict (d : hook_dict) : result hook_payload :=
  p ← hook_percent d;
  Ok {| hp_status := d_status d;
        hp_progress := p;
        hp_speed := from_option hook_speed_str "" (truthy_num (d_speed d));
        hp_eta := from_option hook_eta_str "" (truthy_num (d_eta d));
        hp_filename := default "" (d_filename d) |}.

(** The [DownloadProgress] that [progress_hook] passes to the callback *)
Definition progress_hook (title : string) (d : hook_dict) : result DownloadProgress :=
  p ← payload_of_dict d; Ok (hook_event title p).

End Hook.

(** Dicts as the engine passes them: a quarter of a known total, and a
    total the engine does not know. *)
Module HookScenarios.
Import Hook.

Definition quarter_done : hook_dict :=
  {| d_status := "downloading"; d_downloaded_bytes := Num 50;
     d_total_bytes := Num 200; d_total_bytes_estimate := Absent;
     d_speed := Num 2609152; d_eta := Num 75; d_filename := Some "song.webm" |}.

Definition unknown_total : hook_dict :=
  {| d_status := "downloading"; d_downloaded_bytes := Num 50;
     d_total_bytes := IsNone; d_total_bytes_estimate := Num 200;
     d_speed := IsNone; d_eta := IsNone; d_filename := None |}.

(** A registry whose speeds the hook formatted. *)
Definition hook_made : list Manager.DownloadTask :=
  [Scenarios.task "a" Manager.ACTIVE 10 (hook_speed_str 2609152);
   Scenarios.task "b" Manager.ACTIVE 50 (hook_speed_str 1536);
   Scenarios.task "c" Manager.QUEUED 0 ""].

End HookScenarios.


(** ** The playlist download of the main window ([src/ui/app.py]) *)

Module App.
Import History Manager.

(** [PlaylistItem] and [VideoInfo] of [src/downloader.py] *)
Record PlaylistItem := {
  e_video_id : string;
  e_title : string;
  e_duration : option Z;
  e_thumbnail : option string;
  e_url : option string;
}.

Record VideoInfo := {
  vi_url : string;
  vi_title : string;
  vi_duration : option Z;
  vi_thumbnail : option string;
  vi_is_playlist : bool;
  vi_playlist_count : nat;
  vi_uploader : option string;
  vi_playlist_id : option string;
  vi_entries : option (list PlaylistItem);
}.

(** The fields of [App] that the playlist download reads and writes. The
    widgets are not modelled: [_playlist_dialog] tells whether the dialog
    exists, and the format selector is read by the caller. *)
Record App := {
  _is_downloading : bool;
  _current_video_info : option VideoInfo;
  _playlist_dialog : bool;
  _entries_map : gmap string PlaylistItem;
  _history : DownloadHistory;
  _download_manager : option DownloadManager;
}.

(** [{e.video_id: e for e in info.entries}]; with no entries the map stays
    empty. *)
Definition entries_by_id (entries : option (list PlaylistItem)) : gmap string PlaylistItem :=
  fold_left (λ m e, <[e_video_id e := e]> m) (default [] entries) ∅.

(** The [DownloadTask] built for a selected video *)
Definition new_task (video_id : string) (entry : PlaylistItem)
    (format_type quality : string) : DownloadTask :=
  {| task_id := video_id;
     url := or_default (e_url entry) ("https://www.youtube.com/watch?v=" +:+ video_id);
     title := e_title entry;
     format_type := format_type;
     quality := quality;
     status := QUEUED;
     progress := 0;
     speed := "";
     eta := "";
     error := None |}.

(** One iteration of the loop that builds the batch: a selected id without
    an entry is skipped. *)
Definition add_task (entries_map : gmap string PlaylistItem) (format_type quality : string)
    (tasks : list DownloadTask) (video_id : string) : list DownloadTask :=
  match entries_map !! video_id with
  | Some entry => (tasks ++ [new_task video_id entry format_type quality])%list
  | None => tasks
  end.

(** [_start_playlist_download]; [format_type] and [quality] are what the
    format selector holds. *)
Definition _start_playlist_download (self : App) (video_ids : list string)
    (compare_download : bool) (format_type quality : string) : App :=
  if _is_downloading self then self
  else
    match _current_video_info self with
    | None => self
    | Some info =>
        let video_ids :=
          if compare_download && truthy (vi_playlist_id info) then
            let downloaded_ids :=
              get_downloaded_video_ids (_history self) (default "" (vi_playlist_id info)) in
            filter (λ vid, vid ∉ downloaded_ids) video_ids
          else video_ids in
        match video_ids with
        | [] => self
        | _ =>
            let entries_map := entries_by_id (vi_entries info) in
            let tasks := fold_left (add_task entries_map format_type quality) video_ids [] in
            {| _is_downloading := true;
               _current_video_info := _current_video_info self;
               _playlist_dialog := _playlist_dialog self;
               _entries_map := entries_map;
               _history := _history self;
               _download_manager := Some (submit_tasks (Manager.__init__ 4) tasks) |}
        end
    end.

(** [_on_task_update]; [now] is the time of the call. *)
Definition _on_task_update (self : App) (task : DownloadTask) (info : VideoInfo)
    (now : string) : App :=
  if negb (_playlist_dialog self) then self
  else if has_status COMPLETED task then
    match _entries_map self !! task_id task with
    | Some entry =>
        {| _is_downloading := _is_downloading self;
           _current_video_info := _current_video_info self;
           _playlist_dialog := _playlist_dialog self;
           _entries_map := _entries_map self;
           _history :=
             add_video_download (_history self) now (task_id task) (e_title entry)
               (format_type task) (quality task)
               (vi_playlist_id info) (Some (vi_url info)) (Some (vi_title info));
           _download_manager := _download_manager self |}
    | None => self
    end
  else self.

(** [_playlist_download_complete] *)
Definition _playlist_download_complete (self : App) : App :=
  {| _is_downloading := false;
     _current_video_info := _current_video_info self;
     _playlist_dialog := _playlist_dialog self;
     _entries_map := _entries_map self;
     _history := _history self;
     _download_manager := _download_manager self |}.

(** The task updates of a batch handled one after the other, each with the
    task as it is then and the time of the call. *)
Definition handle_updates (self : App) (info : VideoInfo)
    (updates : list (DownloadTask * string)) : App :=
  fold_left (λ a u, _on_task_update a u.1 info u.2) updates self.


End App.

(** A playlist of three videos, opened in the dialog, with nothing
    fetched. *)
Module AppScenarios.
Import App.

Definition item (vid : string) : PlaylistItem :=
  {| e_video_id := vid; e_title := "Title " +:+ vid; e_duration := None;
     e_thumbnail := None; e_url := None |}.

Definition three_videos : VideoInfo :=
  {| vi_url := "https://www.youtube.com/playlist?list=PL"; vi_title := "Mix";
     vi_duration := None; vi_thumbnail := None; vi_is_playlist := true;
     vi_playlist_count := 3; vi_uploader := None; vi_playlist_id := Some "PL";
     vi_entries := Some [item "a"; item "b"; item "c"] |}.

Definition opened : App :=
  {| _is_downloading := false; _current_video_info := Some three_videos;
     _playlist_dialog := true; _entries_map := entries_by_id (vi_entries three_videos);
     _history := History.empty_history; _download_manager := None |}.

End AppScenarios.
(** * Properties of the history ledger *)

Module HistoryFacts.
Import History Scenarios.

(** Without a usable context the lookup is the standalone one. *)
Lemma is_video_downloaded_no_context (h : DownloadHistory) (vid : string) :
  is_video_downloaded h vid None = bool_decide (is_Some (_single_videos h !! vid)).
Proof. reflexivity. Qed.

(** With the id of a recorded collection only that collection is consulted. *)
Lemma is_video_downloaded_known (h : DownloadHistory) (vid c : string) (r : PlaylistRecord) :
  c ≠ "" → _playlists h !! c = Some r →
  is_video_downloaded h vid (Some c) = bool_decide (is_Some (videos r !! vid)).
Proof.
  intros Hc Hr. unfold is_video_downloaded, truthy.
  destruct (String.eqb_spec c "") as [->|_]; [done|]. simpl. by rewrite Hr.
Qed.

(** With a collection id that has no record the context is ignored. *)
Lemma is_video_downloaded_unknown (h : DownloadHistory) (vid c : string) :
  _playlists h !! c = None →
  is_video_downloaded h vid (Some c) = is_video_downloaded h vid None.
Proof.
  intros Hr. unfold is_video_downloaded. destruct (truthy (Some c)); [|done].
  by rewrite Hr.
Qed.

(** C5, as stated, fails: an item recorded only as a standalone fetch is
    reported fetched when the query names a collection the ledger has no
    record of. *)
Lemma standalone_seen_through_unknown_collection :
  _single_videos standalone_ledger !! "solo" ≠ None
  ∧ _playlists standalone_ledger = ∅
  ∧ is_video_downloaded standalone_ledger "solo" (Some "PL-never-seen") = true.
Proof. split; [|split]; [by vm_compute | reflexivity | by vm_compute]. Qed.

(** C5, amended: the lookup is context-qualified for the collections the
    ledger has a record of. An item with no standalone record is reported
    not fetched when queried without a context, whatever collections hold
    it; an item held by no collection record is reported not fetched when
    queried with the (non-empty) id of any recorded collection; and a query
    naming a collection without a record answers as the query without
    context does. *)
Theorem is_video_downloaded_context_qualified (h : DownloadHistory) (vid : string) :
  (_single_videos h !! vid = None → is_video_downloaded h vid None = false)
  ∧ (∀ c r, c ≠ "" → _playlists h !! c = Some r → videos r !! vid = None →
       is_video_downloaded h vid (Some c) = false)
  ∧ (∀ c, _playlists h !! c = None →
       is_video_downloaded h vid (Some c) = is_video_downloaded h vid None).
Proof.
  split; [|split].
  - intros Hs. rewrite is_video_downloaded_no_context, Hs.
    apply bool_decide_eq_false. by intros [? ?].
  - intros c r Hc Hr Hv. rewrite (is_video_downloaded_known h vid c r Hc Hr), Hv.
    apply bool_decide_eq_false. by intros [? ?].
  - apply is_video_downloaded_unknown.
Qed.

(** The amended statement at work on the ledger with four of ten items
    recorded under [PL]: [v1] is fetched in [PL] but not on its own. *)
Lemma is_video_downloaded_context_qualified_witness :
  is_video_downloaded four_of_ten "v1" None = false
  ∧ is_video_downloaded four_of_ten "v1" (Some "PL") = true.
Proof.
  split.
  - apply (is_video_downloaded_context_qualified four_of_ten "v1"). reflexivity.
  - by vm_compute.
Defined.

(** [fetchedIdsFor] of an unknown collection is empty. *)
Lemma get_downloaded_video_ids_unknown (h : DownloadHistory) (pid : string) :
  _playlists h !! pid = None → get_downloaded_video_ids h pid = ∅.
Proof. intros H. unfold get_downloaded_video_ids. by rewrite H. Qed.

(** C6: [get_new_videos] keeps exactly the candidates that are not in
    [get_downloaded_video_ids], in input order: the result is a subsequence
    of the candidates, it holds a candidate iff that one is not fetched,
    together with the fetched candidates it is a rearrangement of the input
    (so repeated candidates are kept as often as they occur), and on ten
    ids of which four are recorded under the collection it is the other
    six in their original order. *)
Theorem get_new_videos_unfetched_in_order (h : DownloadHistory) (pid : string)
    (ids : list string) :
  get_new_videos h pid ids `sublist_of` ids
  ∧ (∀ vid, vid ∈ get_new_videos h pid ids
        ↔ vid ∈ ids ∧ vid ∉ get_downloaded_video_ids h pid)
  ∧ get_new_videos h pid ids
      ++ filter (λ vid, vid ∈ get_downloaded_video_ids h pid) ids ≡ₚ ids
  ∧ get_new_videos four_of_ten "PL" ten_ids = ["v0"; "v2"; "v3"; "v6"; "v7"; "v9"]
  ∧ get_downloaded_video_ids four_of_ten "PL" = {[ "v1"; "v4"; "v5"; "v8" ]}.
Proof.
  unfold get_new_videos. split; [|split; [|split; [|split]]].
  - apply sublist_filter.
  - intros vid. rewrite list_elem_of_filter. tauto.
  - induction ids as [|x ids IH]; [done|].
    rewrite !filter_cons.
    destruct (decide (x ∉ get_downloaded_video_ids h pid)) as [Hx|Hx];
      destruct (decide (x ∈ get_downloaded_video_ids h pid)) as [Hy|Hy];
      try tauto.
    + simpl. by f_equiv.
    + rewrite <- Permutation_middle. by f_equiv.
  - by vm_compute.
  - apply set_eq. intros x. vm_compute get_downloaded_video_ids. set_solver.
Qed.

(** C9's failing inputs: a history file holding the JSON array [[]] makes
    [data.get] raise [AttributeError]; one whose standalone record carries
    an unknown field makes the record constructor raise [TypeError].
    Neither is among the exceptions [_load] handles, so constructing the
    ledger raises instead of yielding the empty ledger. *)
Theorem init_raises_on_shape_mismatch :
  __init__ (Parsed (JArr [])) = Raise AttributeError
  ∧ __init__ (Parsed (JObj [("playlists", JArr [])])) = Raise AttributeError
  ∧ __init__ (Parsed (JObj [("single_videos",
        JObj [("x", JObj [("video_id", JStr "x"); ("title", JStr "X");
                          ("downloaded_at", JStr "2024"); ("format", JStr "mp3");
                          ("quality", JStr "best"); ("size", JNum 1)])])]))
      = Raise TypeError.
Proof. repeat split. Qed.

(** The failures [_load] does handle leave the empty ledger: a missing
    file, an unreadable one, a file that is not JSON, and a collection
    record lacking one of its keys. *)
Lemma init_degrades_on_handled_failures :
  __init__ Missing = Ok empty_history
  ∧ __init__ (ReadFails IOError) = Ok empty_history
  ∧ __init__ (ReadFails JSONDecodeError) = Ok empty_history
  ∧ __init__ (Parsed (JObj [("playlists", JObj [("PL", JObj [("title", JStr "Mix")])])]))
      = Ok empty_history.
Proof. repeat split. Qed.

(** Whatever the top-level value, if it is not an object the load raises. *)
Lemma init_raises_unless_object (data : json) :
  (∀ items, data ≠ JObj items) → __init__ (Parsed data) = Raise AttributeError.
Proof. intros H. destruct data; try reflexivity. by destruct (H items). Qed.

End HistoryFacts.

(** * Properties of the progress aggregator *)

Module AggregateFacts.
Import Text Manager Spec Scenarios.

(** Every status falls in exactly one of the four counted classes. *)
Lemma counts_partition (tasks : list DownloadTask) :
  (count (has_status COMPLETED) tasks + count (has_status ACTIVE) tasks
   + count (has_status QUEUED) tasks + count is_failed_or_cancelled tasks
   = length tasks)%nat.
Proof.
  unfold count. induction tasks as [|t tasks IH]; [done|].
  unfold is_failed_or_cancelled, has_status in *. cbn [List.filter].
  destruct (status t); repeat case_bool_decide; try congruence; cbn [orb length]; lia.
Qed.

(** What [aggregate] passes on when it passes anything. *)
Lemma aggregate_inv (tasks : list DownloadTask) (a : AggregateProgress) :
  aggregate tasks = Ok (Some a) →
  tasks ≠ []
  ∧ ∃ sp, _sum_speeds tasks = Ok sp
    ∧ a = {| total_tasks := length tasks;
             completed_tasks := count (has_status COMPLETED) tasks;
             active_tasks := count (has_status ACTIVE) tasks;
             queued_tasks := count (has_status QUEUED) tasks;
             failed_tasks := count is_failed_or_cancelled tasks;
             overall_progress :=
               (total_progress tasks / inject_Z (Z.of_nat (length tasks)))%Q;
             total_speed := sp;
             active_titles := title <$> List.filter (has_status ACTIVE) tasks |}.
Proof.
  destruct tasks as [|t tasks]; [discriminate|].
  unfold aggregate. destruct (_sum_speeds (t :: tasks)) as [sp|e] eqn:Hsp; [|discriminate].
  cbn. intros [= <-]. split; [done|]. by exists sp.
Qed.



(** The accumulator loop adds the contributions to what it starts from. *)
Lemma fold_add_progress (tasks : list DownloadTask) (acc : Q) :
  (fold_left add_progress tasks acc == acc + fold_right Qplus 0 (contribution <$> tasks))%Q.
Proof.
  revert acc. induction tasks as [|t tasks IH]; intros acc; cbn [fold_left fmap list_fmap fold_right].
  - ring.
  - rewrite IH. unfold add_progress, contribution, has_status.
    destruct (status t); repeat case_bool_decide; try congruence; ring.
Qed.

(** C7: for a non-empty registry the overall progress is the arithmetic
    mean, over all tasks, of 100 for COMPLETED, the current percent for
    ACTIVE and 0 for QUEUED, FAILED and CANCELLED; the denominator counts
    every task. *)
Theorem overall_progress_is_mean (tasks : list DownloadTask) (a : AggregateProgress) :
  aggregate tasks = Ok (Some a) →
  (overall_progress a == mean (contribution <$> tasks))%Q
  ∧ (overall_progress a * inject_Z (Z.of_nat (length tasks))
     == fold_right Qplus 0 (contribution <$> tasks))%Q.
Proof.
  intros H. destruct (aggregate_inv _ _ H) as (Hne & sp & _ & ->). cbn.
  assert (Htot : (total_progress tasks == fold_right Qplus 0 (contribution <$> tasks))%Q).
  { unfold total_progress. rewrite fold_add_progress. ring. }
  assert (Hlen : ¬ (inject_Z (Z.of_nat (length tasks)) == 0)%Q).
  { destruct tasks; [done|]. unfold Qeq. cbn. lia. }
  split.
  - unfold mean. rewrite length_fmap, Htot. reflexivity.
  - rewrite Htot. field. exact Hlen.
Qed.

(** C7 on the registry with one task in each status: the six tasks
    contribute 100, 30, 0, 0, 0 and 50. *)
Lemma overall_progress_is_mean_witness :
  ∃ a, aggregate mixed_registry = Ok (Some a)
     ∧ (overall_progress a == 30)%Q.
Proof.
  assert (H : ∃ a, aggregate mixed_registry = Ok (Some a))
    by (eexists; vm_compute; reflexivity).
  destruct H as [a H]. exists a. split; [exact H|].
  rewrite (proj1 (overall_progress_is_mean mixed_registry a H)). by vm_compute.
Defined.

(** Adding a zero rate leaves the running total as it is. *)
Lemma Qplus_0_r_eq (q : Q) : (q + 0)%Q = q.
Proof.
  destruct q as [n d]. unfold Qplus. cbn.
  by rewrite Z.mul_1_r, Z.add_0_r, Pos.mul_1_r.
Qed.

(** One iteration of the loop adds the byte rate of an ACTIVE task and
    nothing for the others. *)
Lemma add_speed_byte_rate (acc : Q) (t : DownloadTask) :
  add_speed acc t =
    if has_status ACTIVE t then r ← byte_rate (speed t); Ok (acc + r)%Q
    else Ok acc.
Proof.
  unfold add_speed, byte_rate. destruct (has_status ACTIVE t); [|done].
  cbn [negb orb]. destruct (String.eqb_spec (speed t) "") as [->|_].
  - cbn. by rewrite Qplus_0_r_eq.
  - destruct (endswith _ "MB/s"); [by destruct (float _)|].
    destruct (endswith _ "KB/s"); [by destruct (float _)|].
    destruct (endswith _ "B/s"); [by destruct (float _)|].
    cbn. by rewrite Qplus_0_r_eq.
Qed.

Lemma sum_bytes_byte_rates (tasks : list DownloadTask) (acc : Q) :
  sum_bytes tasks acc =
    rates ← mapM byte_rate (speed <$> List.filter (has_status ACTIVE) tasks);
    Ok (fold_left Qplus rates acc).
Proof.
  revert acc. induction tasks as [|t tasks IH]; intros acc; [done|].
  cbn [sum_bytes List.filter]. rewrite add_speed_byte_rate.
  destruct (has_status ACTIVE t).
  - cbn [fmap list_fmap mapM]. destruct (byte_rate (speed t)) as [r|e]; [|done].
    cbn. rewrite IH.
    by destruct (mapM byte_rate (speed <$> List.filter (has_status ACTIVE) tasks)).
  - cbn. apply IH.
Qed.

(** C8: [_sum_speeds] parses the speed string of each ACTIVE task back to
    a byte rate (MB/s times 1024 x 1024, KB/s times 1024, B/s as it is),
    sums the rates and formats the sum again, with one decimal for MB/s
    and KB/s and none for B/s; two ACTIVE tasks at 2.0 MB/s and 500 KB/s
    give 2.5 MB/s. *)
Theorem sum_speeds_parses_sums_formats :
  (∀ tasks, _sum_speeds tasks = total_throughput tasks)
  ∧ (byte_rate "2.0 MB/s" = Ok (2.0 * 1024 * 1024)%Q
     ∧ byte_rate "500 KB/s" = Ok (500 * 1024)%Q
     ∧ byte_rate "512 B/s" = Ok 512%Q)
  ∧ (∀ total : Q,
       ((1024 * 1024 < total)%Q →
          format_speed total = format_1f (total / (1024 * 1024)) +:+ " MB/s")
       ∧ ((1024 < total)%Q → (total <= 1024 * 1024)%Q →
          format_speed total = format_1f (total / 1024) +:+ " KB/s")
       ∧ ((0 < total)%Q → (total <= 1024)%Q →
          format_speed total = format_0f total +:+ " B/s"))
  ∧ (format_1f (2609152 # 1048576) = "2.5" ∧ format_1f (1536 # 1) = "1536.0"
     ∧ format_0f (512 # 1) = "512")
  ∧ _sum_speeds two_speeds = Ok "2.5 MB/s".
Proof.
  split; [|split; [|split; [|split]]].
  - intros tasks. unfold _sum_speeds, total_throughput.
    rewrite sum_bytes_byte_rates.
    by destruct (mapM byte_rate (speed <$> List.filter (has_status ACTIVE) tasks)).
  - by vm_compute.
  - intros total. unfold format_speed. split; [|split].
    + intros H. destruct (Qlt_le_dec (1024 * 1024) total) as [_|Hle]; [done|].
      exfalso. exact (Qlt_not_le _ _ H Hle).
    + intros H Hmax. destruct (Qlt_le_dec (1024 * 1024) total) as [Hlt|_].
      { exfalso. exact (Qlt_not_le _ _ Hlt Hmax). }
      destruct (Qlt_le_dec 1024 total) as [_|Hle]; [done|].
      exfalso. exact (Qlt_not_le _ _ H Hle).
    + intros H Hmax. destruct (Qlt_le_dec (1024 * 1024) total) as [Hlt|_].
      { exfalso. apply (Qlt_not_le _ _ Hlt). eapply Qle_trans; [exact Hmax|]. by vm_compute. }
      destruct (Qlt_le_dec 1024 total) as [Hlt|_].
      { exfalso. exact (Qlt_not_le _ _ Hlt Hmax). }
      destruct (Qlt_le_dec 0 total) as [_|Hle]; [done|].
      exfalso. exact (Qlt_not_le _ _ H Hle).
  - by vm_compute.
  - by vm_compute.
Qed.

(** C8 on sums of each magnitude. *)
Lemma sum_speeds_parses_sums_formats_witness :
  format_speed (2609152 # 1) = "2.5 MB/s"
  ∧ format_speed (1536 # 1) = "1.5 KB/s"
  ∧ format_speed (512 # 1) = "512 B/s".
Proof.
  pose proof (proj1 (proj2 (proj2 sum_speeds_parses_sums_formats))) as H.
  split; [|split].
  - rewrite (proj1 (H (2609152 # 1))); by vm_compute.
  - rewrite (proj1 (proj2 (H (1536 # 1)))); by vm_compute.
  - rewrite (proj2 (proj2 (H (512 # 1)))); by vm_compute.
Defined.

(** The functions the aggregate is made of do not tell FAILED from
    CANCELLED. *)
Lemma same_but_failed_for_cancelled_inv (t t' : DownloadTask) :
  same_but_failed_for_cancelled t t' →
  has_status COMPLETED t' = has_status COMPLETED t
  ∧ has_status ACTIVE t' = has_status ACTIVE t
  ∧ has_status QUEUED t' = has_status QUEUED t
  ∧ is_failed_or_cancelled t' = is_failed_or_cancelled t
  ∧ title t' = title t.
Proof.
  intros [->|[Hfc [->| ->]]]; [done| |];
    unfold is_failed_or_cancelled, has_status in *;
    destruct t as [tid u ti f q st p sp e er]; cbn [status title set_status] in *;
    destruct st; vm_compute in Hfc; try discriminate Hfc; repeat split.
Qed.

Lemma count_relabel (tasks tasks' : list DownloadTask) (p : DownloadTask → bool) :
  Forall2 (λ t t', p t' = p t) tasks tasks' → count p tasks' = count p tasks.
Proof.
  unfold count. induction 1 as [|t t' ts ts' Hp _ IH]; [done|].
  cbn [List.filter]. rewrite Hp. destruct (p t); cbn; by rewrite IH.
Qed.

Lemma total_progress_relabel (tasks tasks' : list DownloadTask) :
  Forall2 (λ t t', ∀ acc, add_progress acc t' = add_progress acc t) tasks tasks' →
  ∀ acc, fold_left add_progress tasks' acc = fold_left add_progress tasks acc.
Proof.
  induction 1 as [|t t' ts ts' Hp _ IH]; intros acc; [done|].
  cbn [fold_left]. by rewrite Hp, IH.
Qed.

Lemma sum_bytes_relabel (tasks tasks' : list DownloadTask) :
  Forall2 (λ t t', ∀ acc, add_speed acc t' = add_speed acc t) tasks tasks' →
  ∀ acc, sum_bytes tasks' acc = sum_bytes tasks acc.
Proof.
  induction 1 as [|t t' ts ts' Hp _ IH]; intros acc; [done|].
  cbn [sum_bytes]. rewrite Hp. destruct (add_speed acc t); [|done]. cbn. apply IH.
Qed.

Lemma active_titles_relabel (tasks tasks' : list DownloadTask) :
  Forall2 (λ t t', has_status ACTIVE t' = has_status ACTIVE t ∧ title t' = title t)
    tasks tasks' →
  title <$> List.filter (has_status ACTIVE) tasks'
  = title <$> List.filter (has_status ACTIVE) tasks.
Proof.
  induction 1 as [|t t' ts ts' [Ha Ht] _ IH]; [done|].
  cbn [List.filter]. rewrite Ha. destruct (has_status ACTIVE t); cbn; by rewrite ?Ht, IH.
Qed.

(** A task that is FAILED or CANCELLED is not ACTIVE. *)
Lemma failed_or_cancelled_not_active (t : DownloadTask) :
  is_failed_or_cancelled t = true → has_status ACTIVE t = false.
Proof.
  unfold is_failed_or_cancelled, has_status.
  destruct (status t); repeat case_bool_decide; try congruence; done.
Qed.

Lemma add_progress_relabel (t t' : DownloadTask) (acc : Q) :
  same_but_failed_for_cancelled t t' → add_progress acc t' = add_progress acc t.
Proof.
  intros Hs. destruct (same_but_failed_for_cancelled_inv _ _ Hs) as (Hc & Ha & _).
  unfold add_progress. rewrite Hc, Ha.
  destruct (has_status COMPLETED t); [done|].
  destruct (has_status ACTIVE t) eqn:Hact; [|done].
  destruct Hs as [->|[Hfc _]]; [done|].
  by rewrite (failed_or_cancelled_not_active _ Hfc) in Hact.
Qed.

Lemma add_speed_relabel (t t' : DownloadTask) (acc : Q) :
  same_but_failed_for_cancelled t t' → add_speed acc t' = add_speed acc t.
Proof.
  intros Hs. destruct (same_but_failed_for_cancelled_inv _ _ Hs) as (_ & Ha & _).
  rewrite !add_speed_byte_rate, Ha.
  destruct (has_status ACTIVE t) eqn:Hact; [|done].
  destruct Hs as [->|[Hfc _]]; [done|].
  by rewrite (failed_or_cancelled_not_active _ Hfc) in Hact.
Qed.

Lemma aggregate_relabel (tasks tasks' : list DownloadTask) :
  Forall2 same_but_failed_for_cancelled tasks tasks' →
  aggregate tasks' = aggregate tasks.
Proof.
  intros H.
  assert (Hprog := total_progress_relabel tasks tasks'
    (Forall2_impl _ _ _ _ H (λ t t' Hs acc, add_progress_relabel t t' acc Hs))).
  assert (Hsum := sum_bytes_relabel tasks tasks'
    (Forall2_impl _ _ _ _ H (λ t t' Hs acc, add_speed_relabel t t' acc Hs))).
  assert (Htitles : title <$> List.filter (has_status ACTIVE) tasks'
                    = title <$> List.filter (has_status ACTIVE) tasks).
  { apply active_titles_relabel. eapply Forall2_impl; [exact H|].
    intros t t' Hs.
    destruct (same_but_failed_for_cancelled_inv _ _ Hs) as (_ & Ha & _ & _ & Ht).
    by split. }
  assert (Hlen : length tasks' = length tasks)
    by (symmetry; eapply Forall2_length; eauto).
  assert (Hcount : ∀ p, p = has_status COMPLETED ∨ p = has_status ACTIVE
                       ∨ p = has_status QUEUED ∨ p = is_failed_or_cancelled →
                       count p tasks' = count p tasks).
  { intros p Hp. apply count_relabel. eapply Forall2_impl; [exact H|].
    intros t t' Hs.
    destruct (same_but_failed_for_cancelled_inv _ _ Hs) as (Hc & Ha & Hq & Hf & _).
    by destruct Hp as [->|[->|[->| ->]]]. }
  destruct H as [|t t' ts ts' Hhd Htl]; [done|].
  unfold aggregate, _sum_speeds, total_progress.
  rewrite Hprog, Hsum, Htitles, Hlen.
  by rewrite !Hcount by tauto.
Qed.

(** C10: the failed count of every aggregate is the number of FAILED tasks
    plus the number of CANCELLED ones, and two registries that differ only
    in which of these tasks are FAILED and which CANCELLED yield the same
    aggregate: nothing in it tells the two apart. *)
Theorem failed_tasks_counts_cancelled_too :
  (∀ tasks a, aggregate tasks = Ok (Some a) →
     failed_tasks a
     = (count (has_status FAILED) tasks + count (has_status CANCELLED) tasks)%nat)
  ∧ (∀ tasks tasks', Forall2 same_but_failed_for_cancelled tasks tasks' →
       aggregate tasks' = aggregate tasks).
Proof.
  split; [|apply aggregate_relabel].
  intros tasks a H. destruct (aggregate_inv _ _ H) as (_ & sp & _ & ->). cbn.
  clear. unfold count. induction tasks as [|t tasks IH]; [done|].
  cbn [List.filter]. unfold is_failed_or_cancelled, has_status in *.
  destruct (status t); repeat case_bool_decide; try congruence; cbn [orb length]; lia.
Qed.

(** C10 on the registry with one FAILED and one CANCELLED task, and on the
    same registry with the CANCELLED task reported FAILED. *)
Lemma failed_tasks_counts_cancelled_too_witness :
  (∃ a, aggregate mixed_registry = Ok (Some a) ∧ failed_tasks a = 2%nat)
  ∧ aggregate (<[4 := task "e" FAILED 80 ""]> mixed_registry) = aggregate mixed_registry.
Proof.
  split.
  - assert (H : ∃ a, aggregate mixed_registry = Ok (Some a))
      by (eexists; vm_compute; reflexivity).
    destruct H as [a H]. exists a. split; [exact H|].
    rewrite (proj1 failed_tasks_counts_cancelled_too mixed_registry a H).
    by vm_compute.
  - apply (proj2 failed_tasks_counts_cancelled_too).
    unfold mixed_registry. cbn [insert list_insert].
    repeat (constructor;
            [first [by left | right; split; [reflexivity | by left]]|]).
    constructor.
Defined.

End AggregateFacts.

(** * Properties of the orchestrator *)

Module ManagerFacts.
Import Manager Spec Scenarios.

Section DictFacts.
Context {V : Type}.
Implicit Types (d : list (string * V)) (k : string).

Lemma dict_lookup_set k k' (v : V) d :
  dict_lookup k (dict_set k' v d)
  = if String.eqb k k' then Some v else dict_lookup k d.
Proof.
  induction d as [|[k0 v0] d IH]; cbn.
  - by destruct (String.eqb k k').
  - destruct (String.eqb_spec k' k0) as [->|Hne]; cbn.
    + by destruct (String.eqb k k0).
    + destruct (String.eqb_spec k k0) as [->|Hne'].
      * destruct (String.eqb_spec k0 k'); [congruence|done].
      * exact IH.
Qed.

Lemma dict_lookup_alter (f : V → V) k k' d :
  dict_lookup k (dict_alter f k' d)
  = if String.eqb k k' then f <$> dict_lookup k d else dict_lookup k d.
Proof.
  induction d as [|[k0 v0] d IH]; cbn.
  - by destruct (String.eqb k k').
  - destruct (String.eqb_spec k' k0) as [->|Hne]; cbn.
    + by destruct (String.eqb k k0).
    + destruct (String.eqb_spec k k0) as [->|Hne'].
      * destruct (String.eqb_spec k0 k'); [congruence|done].
      * exact IH.
Qed.

Lemma dict_lookup_map (f : V → V) k d :
  dict_lookup k (prod_map id f <$> d) = f <$> dict_lookup k d.
Proof.
  induction d as [|[k0 v0] d IH]; cbn; [done|].
  by destruct (String.eqb k k0).
Qed.
End DictFacts.

Lemma last_with_id_cons (tid : string) (t : DownloadTask) (tasks : list DownloadTask) :
  last_with_id tid (t :: tasks)
  = match last_with_id tid tasks with
    | Some t' => Some t'
    | None => if String.eqb (task_id t) tid then Some t else None
    end.
Proof.
  unfold last_with_id. cbn [rev]. generalize (rev tasks) as l.
  induction l as [|x l IH]; cbn; [done|].
  by destruct (String.eqb (task_id x) tid).
Qed.

(** The loop of [submit_tasks], from any manager. *)
Lemma submit_loop (tasks : list DownloadTask) (m : DownloadManager) :
  let m' := fold_left submit_one tasks m in
  _is_running m' = _is_running m
  ∧ _max_workers m' = _max_workers m
  ∧ (∀ tid, get_task m' tid
            = match last_with_id tid tasks with
              | Some t => Some t
              | None => get_task m tid
              end)
  ∧ (∀ tid, _cancel_flags m' !! tid
            = match last_with_id tid tasks with
              | Some _ => Some false
              | None => _cancel_flags m !! tid
              end).
Proof.
  revert m. induction tasks as [|t tasks IH]; intros m; [done|].
  cbn [fold_left]. destruct (IH (submit_one m t)) as (Hrun & Hmax & Htasks & Hflags).
  split; [exact Hrun|]. split; [exact Hmax|]. split.
  - intros tid. rewrite Htasks, last_with_id_cons.
    destruct (last_with_id tid tasks); [done|].
    unfold get_task, submit_one. cbn. rewrite dict_lookup_set.
    rewrite String.eqb_sym. by destruct (String.eqb (task_id t) tid).
  - intros tid. rewrite Hflags, last_with_id_cons.
    destruct (last_with_id tid tasks); [done|].
    unfold submit_one. cbn.
    destruct (String.eqb_spec (task_id t) tid) as [->|Hne].
    + by rewrite lookup_insert_eq.
    + by rewrite lookup_insert_ne.
Qed.

(** C1, as stated, fails: with task [a] ACTIVE and the manager running, a
    new batch is taken in. Its task [b] enters the registry and gets a
    token; submitting a task with the id of the one in flight replaces the
    ACTIVE task by the queued one. *)
Lemma submit_while_in_flight_is_not_rejected :
  is_running manager_in_flight = true
  ∧ all_done manager_in_flight = false
  ∧ get_task manager_in_flight "b" = None
  ∧ _cancel_flags manager_in_flight !! "b" = None
  ∧ get_task (submit_tasks manager_in_flight [queued "b"]) "b" = Some (queued "b")
  ∧ _cancel_flags (submit_tasks manager_in_flight [queued "b"]) !! "b" = Some false
  ∧ submit_tasks manager_in_flight [queued "b"] ≠ manager_in_flight
  ∧ status <$> get_task manager_in_flight "a" = Some ACTIVE
  ∧ status <$> get_task (submit_tasks manager_in_flight [queued "a"]) "a" = Some QUEUED.
Proof.
  repeat split; by vm_compute.
Qed.

(** C1, amended: [submit_tasks] makes no check for a batch in flight. In
    every manager state, running or not, it leaves the manager running,
    stores each task of the batch in the registry under its id (the last
    one when ids repeat, and in place of any task already registered under
    that id) and creates a fresh, unset token for it; the entries and
    tokens of all other ids are as before. *)
Theorem submit_tasks_always_accepts (self : DownloadManager) (tasks : list DownloadTask) :
  is_running (submit_tasks self tasks) = true
  ∧ (∀ tid, get_task (submit_tasks self tasks) tid
            = match last_with_id tid tasks with
              | Some t => Some t
              | None => get_task self tid
              end)
  ∧ (∀ tid, _cancel_flags (submit_tasks self tasks) !! tid
            = match last_with_id tid tasks with
              | Some _ => Some false
              | None => _cancel_flags self !! tid
              end).
Proof.
  unfold submit_tasks, is_running.
  match goal with |- context [fold_left submit_one tasks ?m] =>
    destruct (submit_loop tasks m) as (Hrun & _ & Htasks & Hflags) end.
  split; [by rewrite Hrun|]. split; [exact Htasks|exact Hflags].
Qed.

End ManagerFacts.

(** * Properties of the workers *)

Module WorkerFacts.
Import Manager Workers Spec Scenarios ManagerFacts.

(** C2's failing inputs. With two pool threads, tasks [a] and [b] both
    close [_download_task] before either done-callback runs: each callback
    then finds every task terminal and [on_batch_complete] is invoked
    twice. With one pool thread, [b] is cancelled while queued: the
    callback of [a] finds every task terminal and notifies, then [b] is run
    all the same (CANCELLED, ACTIVE, CANCELLED again) and its callback
    notifies a second time. Every event of both schedules is enabled and
    every worker runs to its end. *)
Theorem batch_complete_fires_twice :
  let s := run both_finish_then_both_notify
             (launch 2 [queued "a"; queued "b"] quiet) in
  let s1 := run cancel_queued_then_run
              (launch 1 [queued "a"; queued "b"] quiet) in
  (all_enabled both_finish_then_both_notify
     (launch 2 [queued "a"; queued "b"] quiet) = true
   ∧ w_pc <$> workers s !! "a" = Some PExit
   ∧ w_pc <$> workers s !! "b" = Some PExit
   ∧ status <$> dict_values (_tasks (mgr s)) = [COMPLETED; COMPLETED]
   ∧ batch_complete_calls s = 2%nat)
  ∧ (all_enabled cancel_queued_then_run
       (launch 1 [queued "a"; queued "b"] quiet) = true
     ∧ w_pc <$> workers s1 !! "a" = Some PExit
     ∧ w_pc <$> workers s1 !! "b" = Some PExit
     ∧ status <$> dict_values (_tasks (mgr s1)) = [COMPLETED; CANCELLED]
     ∧ batch_complete_calls s1 = 2%nat).
Proof. cbv zeta. repeat split; by vm_compute. Qed.

(** The done-callback that finds every task terminal notifies, whatever
    the terminal states are: a batch whose tasks all failed is reported
    complete as well. *)
Lemma done_callback_notifies_when_all_terminal (self : DownloadManager)
    (tid : string) (w : worker) :
  w_pc w = PDoneCheck → all_done self = true →
  worker_step self tid w = (self, with_pc (PDoneFire true) w, false)
  ∧ (worker_step self tid (with_pc (PDoneFire true) w)).2 = true.
Proof.
  intros Hpc Hall. unfold worker_step. rewrite Hpc, Hall. by cbn.
Qed.

(** *** Cancellation wins over the executor's error *)





















End WorkerFacts.

(** * Further properties of the history ledger *)

Module HistoryMore.
Import History.

Lemma from_kwargs_asdict (v : DownloadedVideo) :
  DownloadedVideo_from_kwargs (asdict v) = Ok v.
Proof. by destruct v. Qed.

(** The loading loops insert the decoded records one after the other. *)
Lemma load_videos_asdict (l : list (string * DownloadedVideo))
    (acc : gmap string DownloadedVideo) :
  load_videos (prod_map id asdict <$> l) acc
  = Ok (fold_left (λ m kv, <[kv.1 := kv.2]> m) l acc).
Proof.
  revert acc. induction l as [|[k v] l IH]; intros acc; [done|].
  cbn [fmap list_fmap prod_map load_videos fst snd id fold_left].
  rewrite from_kwargs_asdict. cbn. apply IH.
Qed.

Lemma fold_insert_list_to_map {V} (l : list (string * V)) (acc : gmap string V) :
  NoDup l.*1 →
  fold_left (λ m kv, <[kv.1 := kv.2]> m) l acc = list_to_map l ∪ acc.
Proof.
  revert acc. induction l as [|[k v] l IH]; intros acc Hnd; cbn.
  - by rewrite (left_id_L ∅ (∪)).
  - apply NoDup_cons in Hnd as [Hk Hnd]. rewrite IH by done.
    rewrite <- insert_union_l. apply symmetry, insert_union_r.
    by apply not_elem_of_list_to_map_1.
Qed.

Lemma fold_insert_map_to_list {V} (m : gmap string V) :
  fold_left (λ m kv, <[kv.1 := kv.2]> m) (map_to_list m) ∅ = m.
Proof.
  rewrite fold_insert_list_to_map by apply NoDup_fst_map_to_list.
  by rewrite (right_id_L ∅ (∪)), list_to_map_to_list.
Qed.

Lemma from_dict_to_dict (p : PlaylistRecord) : from_dict (to_dict p) = Ok p.
Proof.
  destruct p as [a b c d vs]. unfold from_dict, to_dict. cbn.
  rewrite load_videos_asdict, fold_insert_map_to_list. by cbn.
Qed.

Lemma load_playlists_to_dict (l : list (string * PlaylistRecord))
    (acc : gmap string PlaylistRecord) :
  load_playlists (prod_map id to_dict <$> l) acc
  = Ok (fold_left (λ m kv, <[kv.1 := kv.2]> m) l acc).
Proof.
  revert acc. induction l as [|[k v] l IH]; intros acc; [done|].
  cbn [fmap list_fmap prod_map load_playlists fst snd id fold_left].
  rewrite from_dict_to_dict. cbn. apply IH.
Qed.

(** X1: what [_save] writes, [__init__] reads back: constructing a ledger
    from the file a ledger was saved to yields that ledger, whatever it
    holds. *)
Theorem save_then_load (h : DownloadHistory) : __init__ (_save h) = Ok h.
Proof.
  destruct h as [ps ss]. unfold __init__, _load, load_body, _save, save_data. cbn.
  rewrite load_playlists_to_dict, fold_insert_map_to_list. cbn.
  by rewrite load_videos_asdict, fold_insert_map_to_list.
Qed.

Lemma fetched_ids_unknown (h : DownloadHistory) (pid : string) :
  _playlists h !! pid = None → get_downloaded_video_ids h pid = ∅.
Proof. intros H. unfold get_downloaded_video_ids. by rewrite H. Qed.

Lemma truthy_Some (p : string) : p ≠ "" → truthy (Some p) = true.
Proof. intros H. cbn. by destruct (String.eqb_spec p ""). Qed.

(** X2: a recorded item is found again in the context it was recorded in,
    whatever that context is (a collection id, no context, or the empty
    id, which counts as no context). *)
Theorem recorded_is_found (h : DownloadHistory) (now vid title fmt q : string)
    (pid purl ptitle : option string) :
  is_video_downloaded (add_video_download h now vid title fmt q pid purl ptitle) vid pid
  = true.
Proof.
  unfold add_video_download, is_video_downloaded.
  destruct pid as [p|]; [destruct (truthy (Some p))|]; cbn.
  - rewrite lookup_insert_eq. cbn. by rewrite lookup_insert_eq.
  - by rewrite lookup_insert_eq.
  - by rewrite lookup_insert_eq.
Qed.

(** The set of fetched ids of a collection after a record under it. *)
Lemma get_downloaded_video_ids_add (h : DownloadHistory) (now vid title fmt q p : string)
    (purl ptitle : option string) :
  p ≠ "" →
  get_downloaded_video_ids
    (add_video_download h now vid title fmt q (Some p) purl ptitle) p
  = {[ vid ]} ∪ get_downloaded_video_ids h p.
Proof.
  intros Hp. unfold add_video_download, get_downloaded_video_ids.
  rewrite (truthy_Some p Hp). cbn. rewrite lookup_insert_eq. cbn.
  rewrite dom_insert_L. destruct (_playlists h !! p); [done|]. cbn. by rewrite dom_empty_L.
Qed.

(** X3: recording under collection [p] changes the answer of no lookup made
    in another context: the other collections and the standalone records
    are as before. Recording without a context leaves every collection as
    it is. *)
Theorem add_video_download_frame (h : DownloadHistory) (now vid title fmt q : string)
    (pid purl ptitle : option string) :
  let h' := add_video_download h now vid title fmt q pid purl ptitle in
  (truthy pid = true →
     _single_videos h' = _single_videos h
     ∧ (∀ p', Some p' ≠ pid → get_playlist_record h' p' = get_playlist_record h p')
     ∧ (∀ vid' c, c ≠ pid → is_video_downloaded h' vid' c = is_video_downloaded h vid' c))
  ∧ (truthy pid = false →
     _playlists h' = _playlists h
     ∧ (∀ vid', vid' ≠ vid → _single_videos h' !! vid' = _single_videos h !! vid')).
Proof.
  cbv zeta. unfold add_video_download. split; intros Ht.
  - destruct pid as [p|]; [|done]. rewrite Ht. cbn. split; [done|]. split.
    + intros p' Hne. unfold get_playlist_record. cbn.
      apply lookup_insert_ne. congruence.
    + intros vid' c Hc. unfold is_video_downloaded.
      destruct c as [p'|]; [|done]. destruct (truthy (Some p')); [|done].
      cbn. rewrite lookup_insert_ne by congruence. done.
  - destruct pid as [p|]; [rewrite Ht|]; cbn; (split; [done|]);
      intros vid' Hne; by rewrite lookup_insert_ne.
Qed.

(** X3 for a record under collection [PL] queried under [Other] and
    without context, and for a standalone record. *)
Lemma add_video_download_frame_witness :
  is_video_downloaded
    (add_video_download empty_history "t" "v" "V" "mp3" "best" (Some "PL") None None)
    "v" (Some "Other") = false
  ∧ _playlists (add_video_download empty_history "t" "v" "V" "mp3" "best" None None None)
    = ∅.
Proof.
  split.
  - rewrite (proj2 (proj2 (proj1 (add_video_download_frame empty_history
               "t" "v" "V" "mp3" "best" (Some "PL") None None) eq_refl))
               "v" (Some "Other")); [reflexivity|discriminate].
  - exact (proj1 (proj2 (add_video_download_frame empty_history
               "t" "v" "V" "mp3" "best" None None None) eq_refl)).
Defined.

(** X4: the first record under a collection switches lookups made with that
    collection id from the standalone records to the collection: an item
    fetched on its own, reported fetched under the unknown collection id,
    is no longer reported under it once some other item is recorded
    there. *)
Theorem first_record_hides_standalone (h : DownloadHistory)
    (now vid vid' title fmt q p : string) (purl ptitle : option string) :
  p ≠ "" → _playlists h !! p = None → vid' ≠ vid →
  is_Some (_single_videos h !! vid') →
  is_video_downloaded h vid' (Some p) = true
  ∧ is_video_downloaded
      (add_video_download h now vid title fmt q (Some p) purl ptitle) vid' (Some p)
    = false.
Proof.
  intros Hp Hnone Hne Hsolo. unfold is_video_downloaded, add_video_download.
  rewrite (truthy_Some p Hp), Hnone. split; [by apply bool_decide_eq_true|].
  cbn. rewrite lookup_insert_eq. cbn. rewrite lookup_insert_ne by done.
  by rewrite lookup_empty.
Qed.

Lemma first_record_hides_standalone_witness :
  let h := add_video_download empty_history "t" "solo" "S" "mp3" "best" None None None in
  is_video_downloaded h "solo" (Some "PL") = true
  ∧ is_video_downloaded
      (add_video_download h "t" "other" "O" "mp3" "best" (Some "PL") None None)
      "solo" (Some "PL") = false.
Proof.
  cbv zeta. apply first_record_hides_standalone; [done|done|done|].
  vm_compute. by eexists.
Defined.

(** X5: the incremental work set after a batch of records. Recording a list
    of items under a collection removes exactly those items from what
    [get_new_videos] returns for it and keeps the others in their order;
    what it returns for every other collection is unchanged. *)
Theorem get_new_videos_after_records (h : DownloadHistory) (now fmt q p : string)
    (purl ptitle : option string) (done_ : list (string * string)) (ids : list string) :
  p ≠ "" →
  let h' := fold_left (λ h vt, add_video_download h now vt.1 vt.2 fmt q (Some p) purl ptitle)
              done_ h in
  get_new_videos h' p ids
  = filter (λ vid, vid ∉ done_.*1) (get_new_videos h p ids)
  ∧ (∀ p', p' ≠ p → get_new_videos h' p' ids = get_new_videos h p' ids).
Proof.
  intros Hp. cbv zeta. revert h. induction done_ as [|[vid title] l IH]; intros h.
  - cbn. split; [|done]. symmetry. induction (get_new_videos h p ids) as [|x xs IHx]; [done|].
    rewrite filter_cons_True by apply not_elem_of_nil. by rewrite IHx.
  - cbn [fold_left fst snd].
    destruct (IH (add_video_download h now vid title fmt q (Some p) purl ptitle))
      as [Hsame Hother].
    split.
    + rewrite Hsame. unfold get_new_videos.
      rewrite get_downloaded_video_ids_add by done.
      rewrite !list_filter_filter. apply list_filter_iff. intros x. cbn.
      rewrite not_elem_of_cons, not_elem_of_union, elem_of_singleton. tauto.
    + intros p' Hne. rewrite Hother by done. unfold get_new_videos, get_downloaded_video_ids.
      unfold add_video_download. rewrite (truthy_Some p Hp). cbn.
      by rewrite lookup_insert_ne.
Qed.

Lemma get_new_videos_after_records_witness :
  get_new_videos
    (fold_left (λ h vt, add_video_download h "t" vt.1 vt.2 "mp3" "best" (Some "PL") None None)
       [("b", "B"); ("d", "D")] empty_history)
    "PL" ["a"; "b"; "c"; "d"; "e"]
  = ["a"; "c"; "e"].
Proof.
  rewrite (proj1 (get_new_videos_after_records empty_history "t" "mp3" "best" "PL"
                    None None [("b", "B"); ("d", "D")] ["a"; "b"; "c"; "d"; "e"]
                    ltac:(done))).
  by vm_compute.
Defined.

(** X6: recording the same item twice in the same context is an upsert. The
    second record replaces the first (last write wins for the item), while
    a collection keeps the url and title it was first recorded with; with
    the same data and time the second call changes nothing. *)
Theorem add_video_download_upsert (h : DownloadHistory)
    (now1 now2 vid t1 t2 f1 f2 q1 q2 : string) (pid pu1 pu2 pt1 pt2 : option string) :
  add_video_download (add_video_download h now1 vid t1 f1 q1 pid pu1 pt1)
    now2 vid t2 f2 q2 pid pu2 pt2
  = add_video_download h now2 vid t2 f2 q2 pid pu1 pt1.
Proof.
  unfold add_video_download.
  destruct pid as [p|]; [destruct (truthy (Some p))|]; cbn.
  - rewrite lookup_insert_eq, insert_insert_eq. cbn. rewrite insert_insert_eq.
    by destruct (_playlists h !! p).
  - by rewrite insert_insert_eq.
  - by rewrite insert_insert_eq.
Qed.

Lemma filter_not_in_empty (fetched : gset string) (ids : list string) :
  fetched = ∅ → filter (λ vid : string, vid ∉ fetched) ids = ids.
Proof.
  intros ->. induction ids as [|x xs IH]; [done|].
  rewrite filter_cons_True by apply not_elem_of_empty. by rewrite IH.
Qed.

(** X7: forgetting a collection. After [clear_playlist] every candidate of
    that collection is new again, the other collections and the standalone
    records are untouched, and a lookup with the cleared id answers from
    the standalone records; clearing a collection without a record changes
    nothing. After [clear_all] nothing is reported fetched in any
    context. *)
Theorem clearing_forgets (h : DownloadHistory) (p : string) :
  (∀ ids, get_new_videos (clear_playlist h p) p ids = ids)
  ∧ (∀ p', p' ≠ p →
       get_playlist_record (clear_playlist h p) p' = get_playlist_record h p')
  ∧ _single_videos (clear_playlist h p) = _single_videos h
  ∧ (∀ vid, is_video_downloaded (clear_playlist h p) vid (Some p)
            = is_video_downloaded h vid None)
  ∧ (_playlists h !! p = None → clear_playlist h p = h)
  ∧ (∀ vid c ids, is_video_downloaded (clear_all h) vid c = false
                  ∧ get_new_videos (clear_all h) p ids = ids).
Proof.
  assert (Hgone : _playlists (clear_playlist h p) !! p = None).
  { unfold clear_playlist. destruct (_playlists h !! p) eqn:H; [|done].
    cbn. apply lookup_delete_eq. }
  split; [|split; [|split; [|split; [|split]]]].
  - intros ids. unfold get_new_videos.
    apply filter_not_in_empty, fetched_ids_unknown, Hgone.
  - intros p' Hne. unfold get_playlist_record, clear_playlist.
    destruct (_playlists h !! p); [|done]. cbn. by rewrite lookup_delete_ne.
  - unfold clear_playlist. by destruct (_playlists h !! p).
  - intros vid. unfold is_video_downloaded. rewrite Hgone.
    unfold clear_playlist. destruct (truthy (Some p)), (_playlists h !! p); done.
  - intros Hnone. unfold clear_playlist. by rewrite Hnone.
  - intros vid c ids. split.
    + unfold is_video_downloaded, clear_all. cbn.
      destruct c as [c|]; [destruct (truthy (Some c))|]; by rewrite ?lookup_empty.
    + unfold get_new_videos.
      apply filter_not_in_empty, fetched_ids_unknown, lookup_empty.
Qed.

Lemma clearing_forgets_witness :
  clear_playlist empty_history "PL" = empty_history.
Proof.
  apply (proj1 (proj2 (proj2 (proj2 (proj2 (clearing_forgets empty_history "PL")))))).
  reflexivity.
Defined.

End HistoryMore.

(** * Further properties of the manager and the aggregator *)

From Stdlib Require Import Lqa.

Module ManagerMore.
Import Text Manager Spec ManagerFacts.

(** The bound on concurrent downloads is clamped to 1..8 at
    construction: a bound in that range is kept, a smaller one becomes 1 and
    a larger one 8. *)
Theorem max_workers_clamped (w : Z) :
  (1 ≤ _max_workers (__init__ w) ≤ 8)%Z
  ∧ ((1 ≤ w ≤ 8)%Z → _max_workers (__init__ w) = w)
  ∧ ((w < 1)%Z → _max_workers (__init__ w) = 1%Z)
  ∧ ((8 < w)%Z → _max_workers (__init__ w) = 8%Z).
Proof. unfold __init__. cbn. lia. Qed.

Lemma max_workers_clamped_witness :
  _max_workers (__init__ 4) = 4%Z ∧ _max_workers (__init__ 0) = 1%Z
  ∧ _max_workers (__init__ 32) = 8%Z.
Proof.
  split; [|split].
  - apply (proj1 (proj2 (max_workers_clamped 4))). lia.
  - apply (proj1 (proj2 (proj2 (max_workers_clamped 0)))). lia.
  - apply (proj2 (proj2 (proj2 (max_workers_clamped 32)))). lia.
Defined.

Lemma submit_loop_executor (tasks : list DownloadTask) (m : DownloadManager) :
  _executor (fold_left submit_one tasks m)
  = (λ p, {| pool_max_workers := pool_max_workers p;
             work_items := work_items p ++ (task_id <$> tasks) |}) <$> _executor m.
Proof.
  revert m. induction tasks as [|t tasks IH]; intros m.
  - cbn. destruct (_executor m) as [[w q]|]; cbn; [|done]. by rewrite app_nil_r.
  - cbn [fold_left]. rewrite IH. unfold submit_one, pool_submit. cbn.
    destruct (_executor m) as [[w q]|]; cbn; [|done]. by rewrite <- app_assoc.
Qed.

(** X8: every submission builds a new pool, bounded by the manager's
    clamped bound, and hands it the tasks of the batch in submission
    order. *)
Theorem submit_tasks_pool (self : DownloadManager) (tasks : list DownloadTask) :
  _executor (submit_tasks self tasks)
  = Some {| pool_max_workers := _max_workers self; work_items := task_id <$> tasks |}
  ∧ _max_workers (submit_tasks self tasks) = _max_workers self.
Proof.
  unfold submit_tasks. split.
  - by rewrite submit_loop_executor.
  - match goal with |- context [fold_left submit_one tasks ?m] =>
      by destruct (submit_loop tasks m) as (_ & -> & _) end.
Qed.

Lemma dict_set_fresh {V} (k : string) (v : V) (d : list (string * V)) :
  k ∉ dict_keys d → dict_set k v d = (d ++ [(k, v)])%list.
Proof.
  unfold dict_keys. induction d as [|[k' v'] d IH]; cbn; [done|].
  rewrite not_elem_of_cons. intros [Hne Hnot].
  destruct (String.eqb_spec k k'); [done|]. by rewrite IH.
Qed.

Lemma submit_loop_fresh (tasks : list DownloadTask) (m : DownloadManager) :
  NoDup (dict_keys (_tasks m) ++ (task_id <$> tasks))%list →
  _tasks (fold_left submit_one tasks m)
  = (_tasks m ++ ((λ t, (task_id t, t)) <$> tasks))%list.
Proof.
  revert m. induction tasks as [|t tasks IH]; intros m Hnd.
  - cbn. by rewrite app_nil_r.
  - cbn [fold_left]. cbn in Hnd.
    apply NoDup_app in Hnd as (Hm & Hdisj & Hts).
    apply NoDup_cons in Hts as [Ht Hts].
    assert (Hfresh : task_id t ∉ dict_keys (_tasks m)).
    { intros Hin. apply (Hdisj _ Hin). left. }
    rewrite IH; unfold submit_one; cbn; rewrite (dict_set_fresh _ _ _ Hfresh).
    + by rewrite <- app_assoc.
    + unfold dict_keys in *. rewrite fmap_app. cbn.
      rewrite <- app_assoc. cbn. apply NoDup_app. split; [done|]. split.
      * intros x Hx Hin. apply elem_of_cons in Hin as [->|Hin]; [done|].
        apply (Hdisj _ Hx). by right.
      * by apply NoDup_cons.
Qed.

(** X9: a batch of tasks with distinct ids submitted to a new manager is
    the registry, in submission order; the manager is running, and there
    is one unset token per task and none for any other id. *)
Theorem first_batch_is_the_registry (w : Z) (tasks : list DownloadTask) :
  NoDup (task_id <$> tasks) →
  _tasks (submit_tasks (__init__ w) tasks) = (λ t, (task_id t, t)) <$> tasks
  ∧ dict_values (_tasks (submit_tasks (__init__ w) tasks)) = tasks
  ∧ is_running (submit_tasks (__init__ w) tasks) = true
  ∧ (∀ tid, _cancel_flags (submit_tasks (__init__ w) tasks) !! tid
            = if bool_decide (tid ∈ task_id <$> tasks) then Some false else None).
Proof.
  intros Hnd. unfold submit_tasks, is_running.
  match goal with |- context [fold_left submit_one tasks ?m0] => set (m := m0) end.
  destruct (submit_loop tasks m) as (Hrun & _ & _ & Hflags).
  pose proof (submit_loop_fresh tasks m Hnd) as Htasks.
  change (_tasks m) with (@nil (string * DownloadTask)) in Htasks.
  rewrite Htasks. split; [done|]. split.
  - unfold dict_values. cbn [app]. rewrite <- list_fmap_compose. apply list_fmap_id.
  - split; [by rewrite Hrun|]. intros tid. rewrite Hflags.
    change (_cancel_flags m) with (∅ : gmap string bool).
    destruct (last_with_id tid tasks) as [t|] eqn:Hlast.
    + rewrite bool_decide_eq_true_2; [done|].
      unfold last_with_id in Hlast. apply List.find_some in Hlast as [Hin Heq].
      apply String.eqb_eq in Heq as <-. apply list_elem_of_fmap. exists t. split; [done|].
      apply list_elem_of_In. by apply in_rev.
    + rewrite bool_decide_eq_false_2; [by rewrite lookup_empty|].
      intros (t & -> & Hin)%list_elem_of_fmap.
      unfold last_with_id in Hlast.
      assert (Hrev : In t (rev tasks)).
      { apply in_rev. rewrite rev_involutive. by apply list_elem_of_In. }
      pose proof (List.find_none _ _ Hlast t Hrev) as Hno. cbn in Hno.
      by rewrite String.eqb_refl in Hno.
Qed.

Lemma first_batch_is_the_registry_witness :
  dict_values (_tasks (submit_tasks (__init__ 4) Scenarios.two_speeds))
  = Scenarios.two_speeds.
Proof.
  apply (first_batch_is_the_registry 4 Scenarios.two_speeds).
  cbn. apply NoDup_cons. split; [|apply NoDup_singleton].
  rewrite list_elem_of_singleton. discriminate.
Defined.

Lemma cancel_if_pending_terminal (t : DownloadTask) :
  is_terminal (cancel_if_pending t) = true.
Proof.
  unfold cancel_if_pending, is_terminal, has_status.
  destruct t as [a b c d e st p sp et er]. cbn. by destruct st.
Qed.

Lemma cancel_if_pending_id (t : DownloadTask) :
  is_terminal t = true → cancel_if_pending t = t.
Proof.
  unfold cancel_if_pending, is_terminal, has_status.
  destruct t as [a b c d e st p sp et er]. cbn. by destruct st.
Qed.

Lemma cancel_if_pending_idemp (t : DownloadTask) :
  cancel_if_pending (cancel_if_pending t) = cancel_if_pending t.
Proof. apply cancel_if_pending_id, cancel_if_pending_terminal. Qed.

Lemma cancel_if_pending_completed (t : DownloadTask) :
  has_status COMPLETED (cancel_if_pending t) = has_status COMPLETED t.
Proof.
  unfold cancel_if_pending, has_status.
  destruct t as [a b c d e st p sp et er]. cbn. by destruct st.
Qed.

Lemma completed_keys_map (f : DownloadTask → DownloadTask) (d : list (string * DownloadTask)) :
  (∀ t, has_status COMPLETED (f t) = has_status COMPLETED t) →
  fst <$> List.filter (λ kv, has_status COMPLETED kv.2) (prod_map id f <$> d)
  = fst <$> List.filter (λ kv, has_status COMPLETED kv.2) d.
Proof.
  intros Hf. induction d as [|[k t] d IH]; [done|].
  cbn. rewrite Hf. destruct (has_status COMPLETED t); cbn; by rewrite IH.
Qed.

(** X10: [cancel_all] leaves no task QUEUED or ACTIVE. Every task that was
    pending is CANCELLED, every terminal task is exactly as it was, the
    registry keeps its ids and their order, every token is set, the manager
    is no longer running, the set of completed ids is unchanged, and a
    second [cancel_all] changes nothing. *)
Theorem cancel_all_cancels_pending (self : DownloadManager) :
  all_done (cancel_all self) = true
  ∧ dict_keys (_tasks (cancel_all self)) = dict_keys (_tasks self)
  ∧ (∀ tid, get_task (cancel_all self) tid = cancel_if_pending <$> get_task self tid)
  ∧ (∀ tid t, get_task self tid = Some t → is_terminal t = true →
       get_task (cancel_all self) tid = Some t)
  ∧ (∀ tid, is_Some (_cancel_flags self !! tid) →
       cancel_requested (cancel_all self) tid = true)
  ∧ is_running (cancel_all self) = false
  ∧ get_completed_ids (cancel_all self) = get_completed_ids self
  ∧ cancel_all (cancel_all self) = cancel_all self.
Proof.
  assert (Hget : ∀ tid, get_task (cancel_all self) tid
                        = cancel_if_pending <$> get_task self tid).
  { intros tid. unfold get_task, cancel_all. cbn. apply dict_lookup_map. }
  repeat apply conj.
  - unfold all_done, cancel_all, dict_values. cbn.
    induction (_tasks self) as [|[k t] d IH]; [done|].
    cbn. by rewrite cancel_if_pending_terminal, IH.
  - unfold cancel_all, dict_keys. cbn. rewrite <- list_fmap_compose.
    apply list_fmap_ext. by intros _ [k t] _.
  - exact Hget.
  - intros tid t Ht Hterm. rewrite Hget, Ht. cbn. by rewrite (cancel_if_pending_id t Hterm).
  - intros tid [b Hb]. unfold cancel_requested, cancel_all. cbn.
    by rewrite lookup_fmap, Hb.
  - done.
  - unfold get_completed_ids, cancel_all. cbn.
    by rewrite (completed_keys_map _ _ cancel_if_pending_completed).
  - unfold cancel_all. cbn. f_equal.
    + rewrite <- list_fmap_compose. apply list_fmap_ext. intros _ [k t] _. cbn.
      by rewrite cancel_if_pending_idemp.
    + by rewrite <- map_fmap_compose.
Qed.

Lemma cancel_all_cancels_pending_witness :
  status <$> get_task (cancel_all Scenarios.manager_in_flight) "a" = Some CANCELLED.
Proof.
  rewrite (proj1 (proj2 (proj2 (cancel_all_cancels_pending Scenarios.manager_in_flight)))).
  by vm_compute.
Defined.

Lemma dict_alter_id {V} (f : V → V) (k : string) (d : list (string * V)) :
  (∀ v, dict_lookup k d = Some v → f v = v) → dict_alter f k d = d.
Proof.
  induction d as [|[k' v'] d IH]; cbn; [done|]. intros Hf.
  destruct (String.eqb k k'); [by rewrite Hf|]. by rewrite IH.
Qed.

Lemma dict_alter_twice {V} (f : V → V) (k : string) (d : list (string * V)) :
  dict_alter f k (dict_alter f k d) = dict_alter (f ∘ f) k d.
Proof.
  induction d as [|[k' v'] d IH]; cbn; [done|].
  destruct (String.eqb k k') eqn:Hk; cbn; rewrite Hk; [done|]. by rewrite IH.
Qed.

Lemma dict_alter_ext {V} (f g : V → V) (k : string) (d : list (string * V)) :
  (∀ v, f v = g v) → dict_alter f k d = dict_alter g k d.
Proof.
  intros Hfg. induction d as [|[k' v'] d IH]; cbn; [done|].
  destruct (String.eqb k k'); [by rewrite Hfg|]. by rewrite IH.
Qed.

(** X11: [cancel_task] touches one task. The tasks and tokens of all other
    ids are as before; the named task becomes CANCELLED if it was QUEUED or
    ACTIVE and is left as it was if it was terminal (the registry is then
    unchanged, though the token is set all the same); an id with neither a
    task nor a token leaves the manager unchanged; and cancelling twice is
    cancelling once. *)
Theorem cancel_task_scoped (self : DownloadManager) (tid : string) :
  (∀ tid', tid' ≠ tid →
     get_task (cancel_task self tid) tid' = get_task self tid'
     ∧ _cancel_flags (cancel_task self tid) !! tid' = _cancel_flags self !! tid')
  ∧ get_task (cancel_task self tid) tid = cancel_if_pending <$> get_task self tid
  ∧ _cancel_flags (cancel_task self tid) !! tid
    = (λ _, true) <$> _cancel_flags self !! tid
  ∧ (∀ t, get_task self tid = Some t → is_terminal t = true →
       _tasks (cancel_task self tid) = _tasks self)
  ∧ (get_task self tid = None → _cancel_flags self !! tid = None →
       cancel_task self tid = self)
  ∧ cancel_task (cancel_task self tid) tid = cancel_task self tid.
Proof.
  repeat apply conj.
  - intros tid' Hne. unfold get_task, cancel_task. cbn. split.
    + rewrite dict_lookup_alter. by destruct (String.eqb_spec tid' tid).
    + by rewrite lookup_alter_ne.
  - unfold get_task, cancel_task. cbn. by rewrite dict_lookup_alter, String.eqb_refl.
  - unfold cancel_task. cbn. by rewrite lookup_alter_eq.
  - intros t Ht Hterm. unfold cancel_task. cbn. apply dict_alter_id.
    unfold get_task in Ht. intros v Hv. rewrite Ht in Hv. injection Hv as <-.
    by apply cancel_if_pending_id.
  - intros Ht Hf. destruct self as [w ex ts fs cs r]. unfold cancel_task, get_task in *.
    cbn in *. f_equal.
    + apply dict_alter_id. intros v Hv. by rewrite Ht in Hv.
    + apply alter_id. intros b Hb. by rewrite Hf in Hb.
  - unfold cancel_task. cbn. f_equal.
    + rewrite dict_alter_twice. apply dict_alter_ext. intros t. cbn.
      apply cancel_if_pending_idemp.
    + apply map_eq. intros j. destruct (decide (tid = j)) as [->|Hne].
      * rewrite !lookup_alter_eq. by destruct (_cancel_flags self !! j).
      * by rewrite !lookup_alter_ne.
Qed.

Lemma cancel_task_scoped_witness :
  cancel_task (__init__ 4) "nobody" = __init__ 4
  ∧ cancel_task (cancel_all Scenarios.manager_in_flight) "a"
    = cancel_all Scenarios.manager_in_flight.
Proof.
  split.
  - by apply (proj1 (proj2 (proj2 (proj2 (proj2 (cancel_task_scoped (__init__ 4) "nobody")))))).
  - by vm_compute.
Defined.

(** X12: [clear] brings a manager back to its state at construction: empty
    registry, no tokens, no pool, not running. No task can be looked up, no
    id is completed, and the next aggregate update sends nothing. *)
Theorem clear_resets (self : DownloadManager) :
  (1 ≤ _max_workers self ≤ 8)%Z →
  clear self = __init__ (_max_workers self)
  ∧ (∀ tid, get_task (clear self) tid = None)
  ∧ get_completed_ids (clear self) = ∅
  ∧ _notify_aggregate_update (clear self) = Ok None.
Proof.
  intros Hw. repeat apply conj; try done.
  unfold clear, __init__. cbn. f_equal. lia.
Qed.

Lemma clear_resets_witness :
  clear Scenarios.manager_in_flight = __init__ 4.
Proof.
  apply (clear_resets Scenarios.manager_in_flight). by vm_compute.
Defined.

End ManagerMore.

Module AggregateMore.
Import Text Manager Spec AggregateFacts.

Lemma qlen_nil {A} : (qlen (@nil A) == 0)%Q.
Proof. reflexivity. Qed.

Lemma qlen_cons {A} (x : A) (l : list A) : (qlen (x :: l) == qlen l + 1)%Q.
Proof.
  unfold qlen. cbn [length]. rewrite Nat2Z.inj_succ, <- Z.add_1_r, inject_Z_plus.
  reflexivity.
Qed.

Lemma qlen_nonneg {A} (l : list A) : (0 <= qlen l)%Q.
Proof. unfold qlen. change 0%Q with (inject_Z 0). rewrite <- Zle_Qle. lia. Qed.

Lemma qlen_pos {A} (l : list A) : l ≠ [] → (0 < qlen l)%Q.
Proof.
  intros Hne. destruct l as [|x l]; [done|]. rewrite qlen_cons.
  pose proof (qlen_nonneg l). lra.
Qed.

(** The contributions of a registry whose ACTIVE tasks report a percent
    between 0 and 100. *)
Lemma contributions_bounded (tasks : list DownloadTask) :
  (∀ t, t ∈ tasks → status t = ACTIVE → (0 <= progress t <= 100)%Q) →
  (0 <= fold_right Qplus 0 (contribution <$> tasks) <= 100 * qlen tasks)%Q.
Proof.
  induction tasks as [|t tasks IH]; intros Hb.
  - cbn. rewrite qlen_nil. lra.
  - cbn [fmap list_fmap fold_right]. rewrite qlen_cons.
    assert (Ht : (0 <= contribution t <= 100)%Q).
    { unfold contribution. destruct (status t) eqn:Hs; try lra.
      apply Hb; [left|done]. }
    assert (Hrest : (0 <= fold_right Qplus 0 (contribution <$> tasks)
                     <= 100 * qlen tasks)%Q).
    { apply IH. intros t' Hin. apply Hb. by right. }
    change (list_fmap _ _ contribution tasks) with (contribution <$> tasks). lra.
Qed.

(** X13: when every ACTIVE task reports a percent between 0 and 100, the
    overall progress of the aggregate lies between 0 and 100. *)
Theorem overall_progress_in_range (tasks : list DownloadTask) (a : AggregateProgress) :
  aggregate tasks = Ok (Some a) →
  (∀ t, t ∈ tasks → status t = ACTIVE → (0 <= progress t <= 100)%Q) →
  (0 <= overall_progress a <= 100)%Q.
Proof.
  intros H Hb. destruct (aggregate_inv _ _ H) as (Hne & sp & _ & ->). cbn.
  pose proof (contributions_bounded tasks Hb) as [Hlo Hhi].
  pose proof (qlen_pos tasks Hne) as Hpos. fold (qlen tasks).
  assert (Htot : (total_progress tasks == fold_right Qplus 0 (contribution <$> tasks))%Q).
  { unfold total_progress. rewrite fold_add_progress. ring. }
  rewrite Htot. split.
  - apply Qle_shift_div_l; [done|]. lra.
  - apply Qle_shift_div_r; [done|]. lra.
Qed.

Lemma overall_progress_in_range_witness :
  ∃ a, aggregate Scenarios.mixed_registry = Ok (Some a)
     ∧ (0 <= overall_progress a <= 100)%Q.
Proof.
  assert (H : ∃ a, aggregate Scenarios.mixed_registry = Ok (Some a))
    by (eexists; vm_compute; reflexivity).
  destruct H as [a H]. exists a. split; [exact H|].
  apply (overall_progress_in_range Scenarios.mixed_registry a H).
  intros t Hin Hact. unfold Scenarios.mixed_registry in Hin.
  repeat (apply elem_of_cons in Hin as [->|Hin]; [by vm_compute|]).
  by apply elem_of_nil in Hin.
Defined.





Lemma filter_active_none (tasks : list DownloadTask) :
  (∀ t, t ∈ tasks → status t ≠ ACTIVE) → List.filter (has_status ACTIVE) tasks = [].
Proof.
  induction tasks as [|t tasks IH]; intros Hno; [done|].
  cbn. unfold has_status at 1. rewrite bool_decide_eq_false_2 by (apply Hno; left).
  apply IH. intros t' Hin. apply Hno. by right.
Qed.

Lemma filter_filter_same {A} (p : A → bool) (l : list A) :
  List.filter p (List.filter p l) = List.filter p l.
Proof.
  induction l as [|x l IH]; [done|]. cbn. destruct (p x) eqn:Hp; [|done].
  cbn. by rewrite Hp, IH.
Qed.

(** X15: only ACTIVE tasks count towards the total speed: the speed strings
    of the other tasks are never parsed, so a registry without ACTIVE tasks
    always yields the empty total speed, whatever those strings are. *)
Theorem sum_speeds_reads_active_only (tasks : list DownloadTask) :
  _sum_speeds tasks = _sum_speeds (List.filter (has_status ACTIVE) tasks)
  ∧ ((∀ t, t ∈ tasks → status t ≠ ACTIVE) → _sum_speeds tasks = Ok "").
Proof.
  assert (Hfilter : _sum_speeds tasks = _sum_speeds (List.filter (has_status ACTIVE) tasks)).
  { unfold _sum_speeds. by rewrite !sum_bytes_byte_rates, filter_filter_same. }
  split; [exact Hfilter|]. intros Hno.
  by rewrite Hfilter, (filter_active_none tasks Hno).
Qed.

Lemma sum_speeds_reads_active_only_witness :
  _sum_speeds [Scenarios.task "a" FAILED 10 "not a speed MB/s"] = Ok "".
Proof.
  apply (proj2 (sum_speeds_reads_active_only _)).
  intros t Hin. apply list_elem_of_singleton in Hin as ->. discriminate.
Defined.

Lemma sum_speeds_no_active (tasks : list DownloadTask) :
  (∀ t, t ∈ tasks → status t ≠ ACTIVE) → _sum_speeds tasks = Ok "".
Proof.
  intros Hno. unfold _sum_speeds.
  by rewrite sum_bytes_byte_rates, (filter_active_none tasks Hno).
Qed.

Lemma count_filter_length (p : DownloadTask → bool) (tasks : list DownloadTask) :
  count p tasks = length (List.filter p tasks).
Proof. done. Qed.

Lemma total_progress_no_active (tasks : list DownloadTask) (acc : Q) :
  (∀ t, t ∈ tasks → status t ≠ ACTIVE) →
  (fold_left add_progress tasks acc
   == acc + 100 * inject_Z (Z.of_nat (count (has_status COMPLETED) tasks)))%Q.
Proof.
  revert acc. induction tasks as [|t tasks IH]; intros acc Hno.
  - cbn. ring.
  - cbn [fold_left]. rewrite IH by (intros t' Hin; apply Hno; by right).
    assert (Ht : status t ≠ ACTIVE) by (apply Hno; left).
    unfold add_progress, count, has_status. cbn [List.filter].
    destruct (status t); repeat case_bool_decide; try congruence; cbn [length];
      rewrite ?Nat2Z.inj_succ, <- ?Z.add_1_r, ?inject_Z_plus; cbn; ring.
Qed.

(** X16: the aggregate of a registry at rest. When no task is ACTIVE the
    aggregate is always produced (no speed string can make it fail), shows
    no active task, no title and no speed, and its overall progress is the
    share of COMPLETED tasks; when moreover every task is terminal, the
    completed and failed counts add up to the total. *)
Theorem aggregate_at_rest (tasks : list DownloadTask) :
  tasks ≠ [] → (∀ t, t ∈ tasks → status t ≠ ACTIVE) →
  ∃ a, aggregate tasks = Ok (Some a)
     ∧ active_tasks a = 0%nat ∧ active_titles a = [] ∧ total_speed a = ""
     ∧ (overall_progress a
        == 100 * inject_Z (Z.of_nat (completed_tasks a))
           / inject_Z (Z.of_nat (total_tasks a)))%Q
     ∧ (forallb is_terminal tasks = true →
        queued_tasks a = 0%nat
        ∧ (completed_tasks a + failed_tasks a = total_tasks a)%nat).
Proof.
  intros Hne Hno.
  pose proof (sum_speeds_no_active tasks Hno) as Hsp.
  destruct tasks as [|t0 ts]; [done|]. unfold aggregate. rewrite Hsp. cbn [mbind result_bind].
  eexists. split; [reflexivity|]. cbn [active_tasks active_titles total_speed
    overall_progress completed_tasks total_tasks queued_tasks failed_tasks].
  rewrite count_filter_length, (filter_active_none _ Hno).
  split; [done|]. split; [done|]. split; [done|]. split.
  - unfold total_progress. rewrite (total_progress_no_active _ 0 Hno).
    apply Qdiv_comp; [ring|reflexivity].
  - intros Hterm. pose proof (counts_partition (t0 :: ts)) as Hpart.
    rewrite (count_filter_length (has_status ACTIVE)), (filter_active_none _ Hno) in Hpart.
    assert (Hq : count (has_status QUEUED) (t0 :: ts) = 0%nat).
    { clear -Hterm. unfold count. induction (t0 :: ts) as [|t l IH]; [done|].
      cbn in Hterm. apply andb_prop in Hterm as [Ht Hl]. cbn [List.filter].
      unfold is_terminal, has_status in *. destruct (status t);
        repeat case_bool_decide; try congruence; try discriminate Ht; by apply IH. }
    split; [exact Hq|]. rewrite Hq in Hpart. cbn [length] in Hpart |- *. lia.
Qed.

Lemma aggregate_at_rest_witness :
  ∃ a, aggregate [Scenarios.task "a" COMPLETED 100 ""; Scenarios.task "b" CANCELLED 70 "x KB/s"]
       = Ok (Some a)
     ∧ active_tasks a = 0%nat ∧ total_speed a = "".
Proof.
  destruct (aggregate_at_rest
              [Scenarios.task "a" COMPLETED 100 ""; Scenarios.task "b" CANCELLED 70 "x KB/s"])
    as (a & Ha & Hact & _ & Hsp & _).
  - discriminate.
  - intros t Hin. repeat (apply elem_of_cons in Hin as [->|Hin]; [discriminate|]).
    by apply elem_of_nil in Hin.
  - exists a. by repeat split.
Defined.

End AggregateMore.

(** * Further properties of the workers *)

Module WorkerMore.
Import Manager Workers Spec ManagerFacts WorkerFacts.











































Lemma submit_loop_running (tasks : list DownloadTask) (m : DownloadManager) :
  _is_running (fold_left submit_one tasks m) = _is_running m.
Proof. revert m. induction tasks as [|t tasks IH]; intros m; [done|]. cbn [fold_left]. by rewrite IH. Qed.

Lemma finish_running (m : DownloadManager) (tid : string) (o : outcome) :
  _is_running (finish m tid o) = _is_running m.
Proof. destruct o as [[]|msg]; cbn; [done..|]. by destruct (cancel_requested m tid). Qed.

(** The only steps that clear the running flag are the done-callback that
    reports the batch complete and [cancel_all]; no step takes a report
    back. *)
Lemma step_running (s : system) (ev : event) :
  (batch_complete_calls s ≤ batch_complete_calls (step s ev))%nat
  ∧ (is_running (mgr (step s ev)) = false →
     is_running (mgr s) = false ∨ (1 ≤ batch_complete_calls (step s ev))%nat
     ∨ ev = CancelAll).
Proof.
  destruct ev as [|k|k|].
  - unfold step. destruct (queue s) as [|k rest]; [by auto|].
    destruct (workers s !! k) as [w|]; [|by auto].
    destruct (w_pc w); try by auto.
    destruct (Z.of_nat (busy_count s) <? _max_workers (mgr s))%Z; [|by auto].
    unfold worker_start. destruct (extract_error (engines s k)); cbn; by auto.
  - unfold step. destruct (workers s !! k) as [w|]; [|by auto].
    unfold worker_step. destruct (w_pc w) as [| | |o| |[]|]; cbn; try by auto.
    + destruct (cancel_requested (mgr s) k); cbn; by auto.
    + unfold is_running. rewrite finish_running. by auto.
    + split; [lia|]. intros _. right. left. lia.
  - cbn. by auto.
  - cbn. by auto.
Qed.

Lemma run_snoc (schedule : list event) (ev : event) (s : system) :
  run (schedule ++ [ev])%list s = step (run schedule s) ev.
Proof. unfold run. by rewrite fold_left_app. Qed.

Lemma step_no_workers (s : system) (ev : event) :
  workers s = ∅ →
  workers (step s ev) = ∅ ∧ batch_complete_calls (step s ev) = batch_complete_calls s.
Proof.
  intros Hw. destruct ev as [|k|k|]; cbn; try done.
  - destruct (queue s) as [|k rest]; [done|]. by rewrite Hw, lookup_empty.
  - by rewrite Hw, lookup_empty.
Qed.

Lemma running_off_cause (s0 : system) (schedule : list event) :
  is_running (mgr s0) = true →
  is_running (mgr (run schedule s0)) = false →
  (1 ≤ batch_complete_calls (run schedule s0))%nat ∨ CancelAll ∈ schedule.
Proof.
  intros Hon. induction schedule as [|ev schedule IH] using rev_ind.
  - cbn. congruence.
  - rewrite run_snoc. intros Hoff.
    destruct (step_running (run schedule s0) ev) as [Hmono Hcause].
    destruct (Hcause Hoff) as [Hprev|[Hfired| ->]].
    + destruct (IH Hprev) as [Hc|Hin]; [left; lia|right].
      apply elem_of_app. by left.
    + by left.
    + right. apply elem_of_app. right. apply elem_of_cons. by left.
Qed.

Lemma no_workers_idle (s0 : system) (schedule : list event) :
  workers s0 = ∅ →
  workers (run schedule s0) = ∅
  ∧ batch_complete_calls (run schedule s0) = batch_complete_calls s0.
Proof.
  intros Hw0. induction schedule as [|ev schedule IH] using rev_ind; [done|].
  rewrite run_snoc. destruct IH as [Hw Hc].
  destruct (step_no_workers _ ev Hw) as [Hw' Hc']. split; [done|]. by rewrite Hc'.
Qed.

Lemma launch_running (max_workers : Z) (tasks : list DownloadTask)
    (engines : string → engine_run) :
  is_running (mgr (launch max_workers tasks engines)) = true.
Proof. cbn. unfold is_running, submit_tasks. by rewrite submit_loop_running. Qed.

(** X21: a manager stays running until its batch is reported complete or
    [cancel_all] is called: in every run, if [is_running] is false then
    [on_batch_complete] has been invoked or the schedule holds a
    [cancel_all]. An empty batch is never reported: with no task there is
    no done-callback, so after [submit_tasks([])] the manager is running
    for as long as nobody calls [cancel_all]. *)
Theorem running_until_reported (max_workers : Z) (tasks : list DownloadTask)
    (engines : string → engine_run) (schedule : list event) :
  (is_running (mgr (run schedule (launch max_workers tasks engines))) = false →
   (1 ≤ batch_complete_calls (run schedule (launch max_workers tasks engines)))%nat
   ∨ CancelAll ∈ schedule)
  ∧ (tasks = [] →
     batch_complete_calls (run schedule (launch max_workers tasks engines)) = 0%nat
     ∧ (CancelAll ∉ schedule →
        is_running (mgr (run schedule (launch max_workers tasks engines))) = true)).
Proof.
  pose proof (running_off_cause _ schedule (launch_running max_workers tasks engines))
    as Hrun.
  split; [exact Hrun|]. intros ->.
  destruct (no_workers_idle (launch max_workers [] engines) schedule) as [_ Hz]; [done|].
  split; [exact Hz|]. intros Hnot.
  destruct (is_running (mgr (run schedule (launch max_workers [] engines)))) eqn:Hr; [done|].
  destruct (Hrun eq_refl) as [Hc|Hin]; [|done]. rewrite Hz in Hc. cbn in Hc. lia.
Qed.

Lemma running_until_reported_witness :
  batch_complete_calls (run [Start; Step "a"; CancelTask "a"] (launch 4 [] Scenarios.quiet))
  = 0%nat
  ∧ is_running (mgr (run [Start; Step "a"; CancelTask "a"] (launch 4 [] Scenarios.quiet)))
    = true.
Proof.
  destruct (proj2 (running_until_reported 4 [] Scenarios.quiet
                     [Start; Step "a"; CancelTask "a"]) eq_refl) as [Hz Hon].
  split; [exact Hz|]. apply Hon.
  rewrite !not_elem_of_cons. repeat split; try discriminate. apply not_elem_of_nil.
Defined.

End WorkerMore.

(** * Properties of the progress hook *)

Module HookFacts.
Import Text Manager Workers Hook Spec Digits.

(** X22: the percentage the hook reports. Without [downloaded_bytes], or
    without any total, it is 0. When [total_bytes] is present it alone
    decides: a positive total gives downloaded / total x 100, which lies
    between 0 and 100 when 0 <= downloaded <= total, and a total that is
    not positive gives 0 even if an estimate is there; a [total_bytes] or
    [downloaded_bytes] of [None] makes the hook raise [TypeError]. The
    estimate is used only when the [total_bytes] key is absent, and a
    missing, [None] or non-positive estimate gives 0. *)
Theorem hook_percent_cases (d : hook_dict) :
  (d_downloaded_bytes d = Absent → hook_percent d = Ok 0%Q)
  ∧ (d_total_bytes d = Absent → d_total_bytes_estimate d = Absent →
     hook_percent d = Ok 0%Q)
  ∧ (∀ db tb, d_downloaded_bytes d = Num db → d_total_bytes d = Num tb →
       ((0 < tb)%Q → hook_percent d = Ok (db / tb * 100)%Q
                     ∧ ((0 <= db <= tb)%Q → (0 <= db / tb * 100 <= 100)%Q))
       ∧ ((tb <= 0)%Q → hook_percent d = Ok 0%Q))
  ∧ (d_downloaded_bytes d ≠ Absent → d_total_bytes d = IsNone →
     hook_percent d = Raise TypeError)
  ∧ (∀ tb, d_downloaded_bytes d = IsNone → d_total_bytes d = Num tb → (0 < tb)%Q →
     hook_percent d = Raise TypeError)
  ∧ (∀ db, d_downloaded_bytes d = Num db → d_total_bytes d = Absent →
       (∀ est, d_total_bytes_estimate d = Num est → (0 < est)%Q →
          hook_percent d = Ok (db / est * 100)%Q)
       ∧ (∀ est, d_total_bytes_estimate d = Num est → (est <= 0)%Q →
          hook_percent d = Ok 0%Q)
       ∧ (d_total_bytes_estimate d = IsNone → hook_percent d = Ok 0%Q)).
Proof.
  unfold hook_percent. repeat apply conj.
  - by intros ->.
  - intros -> ->. by destruct (d_downloaded_bytes d).
  - intros db tb -> ->. cbn. split.
    + intros Hpos. destruct (Qlt_le_dec 0 tb) as [_|Hle]; [|by destruct (Qlt_not_le _ _ Hpos)].
      split; [done|]. intros [Hlo Hhi].
      assert (H1 : (0 <= db / tb)%Q) by (apply Qle_shift_div_l; [done|]; lra).
      assert (H2 : (db / tb <= 1)%Q) by (apply Qle_shift_div_r; [done|]; lra).
      lra.
    + intros Hle. destruct (Qlt_le_dec 0 tb) as [Hpos|_]; [|done].
      by destruct (Qlt_not_le _ _ Hpos).
  - intros Hdb ->. by destruct (d_downloaded_bytes d).
  - intros tb -> -> Hpos. cbn.
    destruct (Qlt_le_dec 0 tb) as [_|Hle]; [done|]. by destruct (Qlt_not_le _ _ Hpos).
  - intros db -> ->. cbn. repeat apply conj.
    + intros est -> Hpos. cbn.
      destruct (Qlt_le_dec 0 est) as [_|Hle]; [|by destruct (Qlt_not_le _ _ Hpos)].
      destruct (Qeq_bool est 0) eqn:Hz; [|done].
      apply Qeq_bool_eq in Hz. lra.
    + intros est -> Hle. cbn.
      destruct (Qlt_le_dec 0 est) as [Hpos|_]; [by destruct (Qlt_not_le _ _ Hpos)|].
      by destruct (Qeq_bool est 0).
    + by intros ->.
Qed.

Lemma hook_percent_cases_witness :
  hook_percent HookScenarios.quarter_done = Ok (50 / 200 * 100)%Q
  ∧ hook_percent HookScenarios.unknown_total = Raise TypeError.
Proof.
  split.
  - apply (proj1 (proj2 (proj2 (hook_percent_cases HookScenarios.quarter_done)))
             50%Q 200%Q eq_refl eq_refl).
    reflexivity.
  - apply (proj1 (proj2 (proj2 (proj2 (hook_percent_cases HookScenarios.unknown_total)))));
      [discriminate|reflexivity].
Defined.

(** *** Strings *)

Lemma append_cons (x : ascii) (a b : string) : String x a +:+ b = String x (a +:+ b).
Proof. reflexivity. Qed.

Lemma append_assoc (a b c : string) : (a +:+ b) +:+ c = a +:+ (b +:+ c).
Proof. induction a as [|x a IH]; [done|]. rewrite !append_cons. by rewrite IH. Qed.

Lemma append_nil_r (a : string) : a +:+ "" = a.
Proof. induction a as [|x a IH]; [done|]. rewrite append_cons. by rewrite IH. Qed.

Lemma rev_app_spec (s1 s2 : string) : String.rev_app s1 s2 = String.rev_app s1 "" +:+ s2.
Proof.
  revert s2. induction s1 as [|a s1 IH]; intros s2; cbn [String.rev_app]; [done|].
  rewrite (IH (String a s2)), (IH (String a "")). by rewrite append_assoc.
Qed.

Lemma rev_app_append (s1 s2 acc : string) :
  String.rev_app (s1 +:+ s2) acc = String.rev_app s2 (String.rev_app s1 acc).
Proof.
  revert acc. induction s1 as [|a s1 IH]; intros acc; [done|].
  rewrite append_cons. cbn [String.rev_app]. apply IH.
Qed.

Lemma rev_append (s1 s2 : string) :
  String.rev (s1 +:+ s2) = String.rev s2 +:+ String.rev s1.
Proof. unfold String.rev. by rewrite rev_app_append, rev_app_spec. Qed.

Lemma rev_app_rev_app (s1 s2 acc : string) :
  String.rev_app (String.rev_app s1 s2) acc = String.rev_app s2 (s1 +:+ acc).
Proof.
  revert s2 acc. induction s1 as [|a s1 IH]; intros s2 acc; [done|].
  cbn [String.rev_app]. rewrite IH. by rewrite append_cons.
Qed.

Lemma rev_rev (s : string) : String.rev (String.rev s) = s.
Proof. unfold String.rev. rewrite rev_app_rev_app. cbn [String.rev_app]. apply append_nil_r. Qed.

Lemma length_append (a b : string) :
  String.length (a +:+ b) = (String.length a + String.length b)%nat.
Proof. induction a as [|x a IH]; [done|]. rewrite append_cons. cbn [String.length]. by rewrite IH. Qed.

Lemma substring_prefix (a b : string) :
  String.substring 0 (String.length a) (a +:+ b) = a.
Proof.
  induction a as [|x a IH]; [by destruct b|].
  rewrite append_cons. cbn [String.length String.substring]. by rewrite IH.
Qed.

(** [(a + suffix)[:-len(suffix)]] *)
Lemma drop_last_append (a suffix : string) :
  drop_last (String.length suffix) (a +:+ suffix) = a.
Proof.
  unfold drop_last. rewrite length_append, Nat.add_sub. apply substring_prefix.
Qed.

(** *** Digits *)

Lemma is_digit_val (c : ascii) :
  is_digit c = true → ∃ d, digit_val c = Some d ∧ (0 ≤ d ≤ 9)%Z.
Proof.
  unfold is_digit, digit_val.
  destruct (48 <=? nat_of_ascii c)%nat eqn:H1; [|done].
  destruct (nat_of_ascii c <=? 57)%nat eqn:H2; [|done].
  intros _. eexists. split; [done|].
  apply Nat.leb_le in H1, H2. lia.
Qed.

Lemma digit_not_space (c : ascii) : is_digit c = true → isspace c = false.
Proof.
  unfold is_digit, digit_val, isspace.
  destruct (48 <=? nat_of_ascii c)%nat eqn:H1; [|done].
  destruct (nat_of_ascii c <=? 57)%nat eqn:H2; [|done].
  intros _. apply Nat.leb_le in H1, H2. cbn [andb].
  apply orb_false_iff. split; apply andb_false_iff.
  - right. apply Nat.leb_gt. lia.
  - right. apply Nat.leb_gt. lia.
Qed.

Lemma digit_not_point (c : ascii) : is_digit c = true → Ascii.eqb c "." = false.
Proof.
  intros H. apply Ascii.eqb_neq. intros ->. by vm_compute in H.
Qed.

Lemma pretty_N_char_val (x : N) :
  (x < 10)%N → digit_val (pretty_N_char x) = Some (Z.of_N x).
Proof.
  intros H.
  assert (x = 0 ∨ x = 1 ∨ x = 2 ∨ x = 3 ∨ x = 4 ∨ x = 5 ∨ x = 6 ∨ x = 7
          ∨ x = 8 ∨ x = 9)%N as Hx by lia.
  repeat (destruct Hx as [->|Hx]; [reflexivity|]). by subst.
Qed.

Lemma all_digits_append (a b : string) :
  all_digits (a +:+ b) = all_digits a && all_digits b.
Proof.
  induction a as [|x a IH]; [done|].
  rewrite append_cons. cbn [all_digits]. by rewrite IH, andb_assoc.
Qed.

Lemma digits_val_append (a b : string) (acc : Z) :
  digits_val (a +:+ b) acc = digits_val a acc ≫= digits_val b.
Proof.
  revert acc. induction a as [|x a IH]; intros acc; [done|].
  rewrite append_cons. cbn [digits_val]. destruct (digit_val x); [apply IH|done].
Qed.

Lemma all_digits_rev_app (a acc : string) :
  all_digits (String.rev_app a acc) = all_digits a && all_digits acc.
Proof.
  revert acc. induction a as [|x a IH]; intros acc; [done|].
  cbn [String.rev_app all_digits]. rewrite IH. cbn [all_digits].
  by destruct (is_digit x), (all_digits a).
Qed.

Lemma all_digits_rev (a : string) : all_digits (String.rev a) = all_digits a.
Proof. unfold String.rev. rewrite all_digits_rev_app. cbn. apply andb_true_r. Qed.

Lemma rev_nonempty (a : string) : a ≠ "" → String.rev a ≠ "".
Proof. intros Ha Hr. apply Ha. by rewrite <- (rev_rev a), Hr. Qed.

(** The digits [pretty] puts in front of [s] read back as the number. *)
Lemma pretty_N_go_digits (x : N) (s : string) :
  ∃ p, pretty_N_go x s = p +:+ s ∧ all_digits p = true
       ∧ digits_val p 0 = Some (Z.of_N x) ∧ ((0 < x)%N → p ≠ "").
Proof.
  revert s. induction (N.lt_wf_0 x) as [x _ IH]; intros s.
  assert (x = 0 ∨ 0 < x)%N as [->|Hpos] by lia.
  { exists "". rewrite pretty_N_go_0. repeat split; [lia]. }
  rewrite pretty_N_go_step by done.
  destruct (IH (x `div` 10)%N (N.div_lt x 10 Hpos eq_refl)
              (String (pretty_N_char (x `mod` 10)) s)) as (p & -> & Hd & Hv & _).
  assert (Hm : (x `mod` 10 < 10)%N) by (apply N.mod_lt; lia).
  pose proof (pretty_N_char_val _ Hm) as Hc.
  exists (p +:+ String (pretty_N_char (x `mod` 10)) "").
  split; [by rewrite append_assoc|]. split; [|split].
  - rewrite all_digits_append, Hd. cbn [all_digits andb]. unfold is_digit.
    by rewrite Hc.
  - rewrite digits_val_append, Hv. cbn [mbind option_bind digits_val]. rewrite Hc.
    f_equal. rewrite N2Z.inj_div, N2Z.inj_mod.
    pose proof (Z.div_mod (Z.of_N x) 10). lia.
  - intros _. by destruct p.
Qed.

Lemma pretty_Z_digits (z : Z) :
  (0 ≤ z)%Z →
  all_digits (pretty z) = true ∧ pretty z ≠ "" ∧ digits_val (pretty z) 0 = Some z.
Proof.
  intros Hz. destruct z as [|p|p]; [done| |lia].
  change (pretty (Z.pos p)) with (pretty_N_go (N.pos p) "").
  destruct (pretty_N_go_digits (N.pos p) "") as (d & -> & Hd & Hv & Hne).
  rewrite append_nil_r. repeat split; [done|by apply Hne|done].
Qed.

Lemma pretty_digit_length (z : Z) :
  (0 ≤ z < 10)%Z → String.length (pretty z) = 1%nat.
Proof.
  intros H.
  assert (z = 0 ∨ z = 1 ∨ z = 2 ∨ z = 3 ∨ z = 4 ∨ z = 5 ∨ z = 6 ∨ z = 7
          ∨ z = 8 ∨ z = 9)%Z as Hx by lia.
  repeat (destruct Hx as [->|Hx]; [reflexivity|]). by subst.
Qed.

Lemma digits_start (p : string) :
  all_digits p = true → p ≠ "" → starts_nonspace p = true.
Proof.
  destruct p as [|c p]; [done|]. cbn [all_digits starts_nonspace].
  intros [Hc _]%andb_true_iff _. by rewrite digit_not_space.
Qed.

Lemma starts_nonspace_append (a b : string) :
  starts_nonspace a = true → starts_nonspace (a +:+ b) = true.
Proof. by destruct a. Qed.

Lemma lstrip_starts (s : string) : starts_nonspace s = true → lstrip s = s.
Proof.
  destruct s as [|c s]; [done|]. cbn [starts_nonspace lstrip].
  by destruct (isspace c).
Qed.

(** A string with no blank at either end is its own [strip]. *)
Lemma strip_clean (s : string) :
  starts_nonspace s = true → starts_nonspace (String.rev s) = true → strip s = s.
Proof.
  intros H1 H2. unfold strip. rewrite (lstrip_starts s H1), (lstrip_starts _ H2).
  apply rev_rev.
Qed.

(** One trailing blank is stripped. *)
Lemma strip_trailing_blank (s : string) :
  starts_nonspace s = true → starts_nonspace (String.rev s) = true →
  strip (s +:+ " ") = s.
Proof.
  intros H1 H2. unfold strip.
  rewrite (lstrip_starts _ (starts_nonspace_append _ " " H1)), rev_append.
  change (String.rev " " +:+ String.rev s) with (String " " (String.rev s)).
  cbn [lstrip]. change (isspace " ") with true. cbn match.
  rewrite (lstrip_starts _ H2). apply rev_rev.
Qed.

Lemma split_point_digits (p : string) :
  all_digits p = true → split_point p = (p, None).
Proof.
  induction p as [|c p IH]; [done|]. cbn [all_digits split_point].
  intros [Hc Hp]%andb_true_iff. by rewrite (digit_not_point c Hc), (IH Hp).
Qed.

Lemma split_point_fraction (p r : string) :
  all_digits p = true → split_point (p +:+ "." +:+ r) = (p, Some r).
Proof.
  induction p as [|c p IH]; [done|]. rewrite append_cons. cbn [all_digits split_point].
  intros [Hc Hp]%andb_true_iff. by rewrite (digit_not_point c Hc), (IH Hp).
Qed.

(** [float] on a string that starts with a digit and has no blank at its
    ends reads an unsigned decimal. *)
Lemma float_unsigned (s : string) :
  starts_nonspace (String.rev s) = true →
  (∃ c r, s = String c r ∧ is_digit c = true) →
  float s = match unsigned_decimal s with
            | Some q => Ok q
            | None => Raise ValueError
            end.
Proof.
  intros Hend (c & r & -> & Hc). unfold float. rewrite strip_clean; [|cbn; by rewrite digit_not_space|done].
  destruct c as [[] [] [] [] [] [] [] []]; vm_compute in Hc; try discriminate Hc; reflexivity.
Qed.

(** *** Formatting, then parsing *)

Lemma digits_head (p : string) :
  all_digits p = true → p ≠ "" → ∃ c r, p = String c r ∧ is_digit c = true.
Proof.
  destruct p as [|c r]; [done|]. cbn [all_digits].
  intros [Hc _]%andb_true_iff _. by exists c, r.
Qed.

Lemma digits_end (p : string) :
  all_digits p = true → p ≠ "" → starts_nonspace (String.rev p) = true.
Proof.
  intros Hd Hne. apply digits_start; [by rewrite all_digits_rev|by apply rev_nonempty].
Qed.

(** [float(str(z))] for a natural number *)
Lemma float_pretty (z : Z) :
  (0 ≤ z)%Z → ∃ x, float (pretty z) = Ok x ∧ (x == inject_Z z)%Q.
Proof.
  intros Hz. destruct (pretty_Z_digits z Hz) as (Hd & Hne & Hv).
  rewrite float_unsigned; [|by apply digits_end|by apply digits_head].
  unfold unsigned_decimal. rewrite (split_point_digits _ Hd). cbn [default].
  destruct (pretty z) as [|c r] eqn:Hp; [done|].
  cbn [String.length Nat.add Nat.eqb]. rewrite Hv. cbn [digits_val].
  eexists. split; [done|]. unfold Qeq. cbn. lia.
Qed.

(** [float] of a number printed with one decimal: [n] tenths *)
Lemma float_one_decimal (n : Z) :
  (0 ≤ n)%Z →
  ∃ x, float (pretty (n / 10)%Z +:+ "." +:+ pretty (n `mod` 10)%Z) = Ok x
       ∧ (x == inject_Z n / 10)%Q.
Proof.
  intros Hn.
  assert (Hi : (0 ≤ n / 10)%Z) by (apply Z.div_pos; lia).
  assert (Hf : (0 ≤ n `mod` 10 < 10)%Z) by (apply Z.mod_pos_bound; lia).
  destruct (pretty_Z_digits _ Hi) as (Hd1 & Hne1 & Hv1).
  destruct (pretty_Z_digits (n `mod` 10)%Z) as (Hd2 & Hne2 & Hv2); [lia|].
  rewrite float_unsigned.
  - unfold unsigned_decimal. rewrite (split_point_fraction _ _ Hd1). cbn [default id].
    rewrite (pretty_digit_length _ Hf), Hv1, Hv2.
    destruct (pretty (n / 10)%Z) as [|c r] eqn:Hp; [done|].
    cbn [String.length Nat.add Nat.eqb].
    eexists. split; [done|]. unfold Qeq, Qdiv, Qmult, Qinv, inject_Z. cbn.
    pose proof (Z.div_mod n 10). lia.
  - rewrite !rev_append. by apply starts_nonspace_append, starts_nonspace_append, digits_end.
  - destruct (digits_head _ Hd1 Hne1) as (c & r & -> & Hc). by exists c, (r +:+ "." +:+ pretty (n `mod` 10)%Z).
Qed.

Lemma round_half_even_near (q : Q) :
  (q - (1 # 2) <= inject_Z (round_half_even q) <= q + (1 # 2))%Q.
Proof.
  unfold round_half_even.
  pose proof (Qfloor_le q) as Hlo. pose proof (Qlt_floor q) as Hhi.
  rewrite inject_Z_plus in Hhi. change (inject_Z 1) with 1%Q in Hhi.
  destruct (q - inject_Z (Qfloor q) ?= 1 # 2)%Q eqn:Hc.
  - apply Qeq_alt in Hc.
    destruct (Z.even (Qfloor q)); rewrite ?inject_Z_plus;
      change (inject_Z 1) with 1%Q; lra.
  - apply Qlt_alt in Hc. lra.
  - apply Qgt_alt in Hc. rewrite inject_Z_plus. change (inject_Z 1) with 1%Q. lra.
Qed.

Lemma round_half_even_nonneg (q : Q) : (0 <= q)%Q → (0 ≤ round_half_even q)%Z.
Proof.
  intros Hq. unfold round_half_even.
  assert (H0 : (0 ≤ Qfloor q)%Z) by (change 0%Z with (Qfloor 0); by apply Qfloor_resp_le).
  destruct (q - inject_Z (Qfloor q) ?= 1 # 2)%Q; [destruct (Z.even (Qfloor q))|..]; lia.
Qed.

(** [float(f"{q:.0f}")] is [q] rounded to an integer. *)
Lemma float_format_0f (q : Q) :
  (0 <= q)%Q →
  ∃ x, float (format_0f q) = Ok x ∧ (q - (1 # 2) <= x <= q + (1 # 2))%Q.
Proof.
  intros Hq. destruct (float_pretty _ (round_half_even_nonneg q Hq)) as (x & Hx & Hv).
  exists x. split; [done|]. rewrite Hv. apply round_half_even_near.
Qed.

(** [float(f"{q:.1f}")] is [q] rounded to a tenth. *)
Lemma float_format_1f (q : Q) :
  (0 <= q)%Q →
  ∃ x, float (format_1f q) = Ok x ∧ (q - (1 # 20) <= x <= q + (1 # 20))%Q.
Proof.
  intros Hq.
  assert (H10 : (0 <= q * 10)%Q) by lra.
  destruct (float_one_decimal _ (round_half_even_nonneg _ H10)) as (x & Hx & Hv).
  exists x. split; [done|]. rewrite Hv.
  pose proof (round_half_even_near (q * 10)) as Hn.
  change (inject_Z (round_half_even (q * 10)) / 10)%Q
    with (inject_Z (round_half_even (q * 10)) * (1 # 10))%Q.
  lra.
Qed.

Lemma pretty_clean (z : Z) :
  (0 ≤ z)%Z →
  starts_nonspace (pretty z) = true ∧ starts_nonspace (String.rev (pretty z)) = true.
Proof.
  intros Hz. destruct (pretty_Z_digits z Hz) as (Hd & Hne & _).
  split; [by apply digits_start|by apply digits_end].
Qed.

Lemma one_decimal_clean (n : Z) :
  (0 ≤ n)%Z →
  let s := pretty (n / 10)%Z +:+ "." +:+ pretty (n `mod` 10)%Z in
  starts_nonspace s = true ∧ starts_nonspace (String.rev s) = true.
Proof.
  intros Hn s. subst s.
  destruct (pretty_clean (n / 10)%Z) as [H1 _]; [apply Z.div_pos; lia|].
  destruct (pretty_clean (n `mod` 10)%Z) as [_ H2]; [apply Z.mod_pos_bound; lia|].
  split; [by apply starts_nonspace_append|].
  rewrite !rev_append. by apply starts_nonspace_append, starts_nonspace_append.
Qed.

(** What one iteration of [_sum_speeds] adds for an ACTIVE task whose speed
    is a clean number, a blank and a unit. *)
Lemma add_speed_reads (total x : Q) (t : DownloadTask) (D : string) :
  status t = ACTIVE →
  starts_nonspace D = true → starts_nonspace (String.rev D) = true →
  float D = Ok x →
  (speed t = D +:+ " MB/s" → add_speed total t = Ok (total + x * 1024 * 1024)%Q)
  ∧ (speed t = D +:+ " KB/s" → add_speed total t = Ok (total + x * 1024)%Q)
  ∧ (speed t = D +:+ " B/s" → add_speed total t = Ok (total + x)%Q).
Proof.
  intros Hst H1 H2 Hx. unfold add_speed, has_status. rewrite Hst.
  rewrite bool_decide_true by done. cbn [negb orb].
  assert (Hne : ∀ u, String.eqb (D +:+ u) "" = false).
  { intros u. destruct D as [|c r]; [done|]. by rewrite append_cons. }
  assert (Hstrip : ∀ u, starts_nonspace (String.rev u) = true → strip (D +:+ u) = D +:+ u).
  { intros u Hu. apply strip_clean; [by apply starts_nonspace_append|].
    rewrite rev_append. by apply starts_nonspace_append. }
  repeat apply conj; intros ->; rewrite Hne, Hstrip by done.
  - replace (endswith (D +:+ " MB/s") "MB/s") with true
      by (unfold endswith; by rewrite rev_append).
    replace (D +:+ " MB/s") with ((D +:+ " ") +:+ "MB/s") by (by rewrite append_assoc).
    change 4%nat with (String.length "MB/s").
    rewrite drop_last_append, strip_trailing_blank, Hx by done. done.
  - replace (endswith (D +:+ " KB/s") "MB/s") with false
      by (unfold endswith; by rewrite rev_append).
    replace (endswith (D +:+ " KB/s") "KB/s") with true
      by (unfold endswith; by rewrite rev_append).
    replace (D +:+ " KB/s") with ((D +:+ " ") +:+ "KB/s") by (by rewrite append_assoc).
    change 4%nat with (String.length "KB/s").
    rewrite drop_last_append, strip_trailing_blank, Hx by done. done.
  - replace (endswith (D +:+ " B/s") "MB/s") with false
      by (unfold endswith; by rewrite rev_append).
    replace (endswith (D +:+ " B/s") "KB/s") with false
      by (unfold endswith; by rewrite rev_append).
    replace (endswith (D +:+ " B/s") "B/s") with true
      by (unfold endswith; by rewrite rev_append).
    replace (D +:+ " B/s") with ((D +:+ " ") +:+ "B/s") by (by rewrite append_assoc).
    change 3%nat with (String.length "B/s").
    rewrite drop_last_append, strip_trailing_blank, Hx by done. done.
Qed.

(** The speed string of the hook is a clean number, a blank and a unit, and
    the number reads back as the scaled speed, rounded. *)
Lemma hook_speed_shape (q : Q) :
  (0 < q)%Q →
  ∃ D x, starts_nonspace D = true ∧ starts_nonspace (String.rev D) = true
    ∧ float D = Ok x
    ∧ (((1024 * 1024 < q)%Q ∧ hook_speed_str q = D +:+ " MB/s"
        ∧ (q / (1024 * 1024) - (1 # 20) <= x <= q / (1024 * 1024) + (1 # 20))%Q)
       ∨ ((1024 < q)%Q ∧ (q <= 1024 * 1024)%Q ∧ hook_speed_str q = D +:+ " KB/s"
          ∧ (q / 1024 - (1 # 20) <= x <= q / 1024 + (1 # 20))%Q)
       ∨ ((q <= 1024)%Q ∧ hook_speed_str q = D +:+ " B/s"
          ∧ (q - (1 # 2) <= x <= q + (1 # 2))%Q)).
Proof.
  intros Hq. unfold hook_speed_str.
  destruct (Qlt_le_dec (1024 * 1024) q) as [Hmb|Hmb];
    [|destruct (Qlt_le_dec 1024 q) as [Hkb|Hkb]].
  - assert (H0 : (0 <= q / (1024 * 1024))%Q) by (apply Qle_shift_div_l; lra).
    assert (H10 : (0 <= q / (1024 * 1024) * 10)%Q) by lra.
    destruct (float_format_1f _ H0) as (x & Hx & Hb).
    destruct (one_decimal_clean _ (round_half_even_nonneg _ H10)) as [Hc1 Hc2].
    exists (format_1f (q / (1024 * 1024))), x.
    split; [exact Hc1|split; [exact Hc2|split; [exact Hx|]]].
    left. split; [exact Hmb|split; [reflexivity|exact Hb]].
  - assert (H0 : (0 <= q / 1024)%Q) by (apply Qle_shift_div_l; lra).
    assert (H10 : (0 <= q / 1024 * 10)%Q) by lra.
    destruct (float_format_1f _ H0) as (x & Hx & Hb).
    destruct (one_decimal_clean _ (round_half_even_nonneg _ H10)) as [Hc1 Hc2].
    exists (format_1f (q / 1024)), x.
    split; [exact Hc1|split; [exact Hc2|split; [exact Hx|]]].
    right. left. split; [exact Hkb|split; [exact Hmb|split; [reflexivity|exact Hb]]].
  - assert (H0 : (0 <= q)%Q) by lra.
    destruct (float_format_0f _ H0) as (x & Hx & Hb).
    destruct (pretty_clean _ (round_half_even_nonneg _ H0)) as [Hc1 Hc2].
    exists (format_0f q), x.
    split; [exact Hc1|split; [exact Hc2|split; [exact Hx|]]].
    right. right. split; [exact Hkb|split; [reflexivity|exact Hb]].
Qed.

(** X23: the speed string the hook formats is read back by [_sum_speeds].
    For an ACTIVE task whose speed is the hook's string for a positive
    speed [q], one iteration of the loop adds a rate [r] that differs from
    [q] by at most the rounding of the format: half a byte per second under
    1024, a twentieth of a KB/s up to 1024 x 1024, a twentieth of a MB/s
    above. *)
Theorem hook_speed_read_back (q total : Q) (t : DownloadTask) :
  (0 < q)%Q → status t = ACTIVE → speed t = hook_speed_str q →
  ∃ r, add_speed total t = Ok (total + r)%Q
       ∧ ((q <= 1024)%Q → (q - (1 # 2) <= r <= q + (1 # 2))%Q)
       ∧ ((1024 < q)%Q → (q <= 1024 * 1024)%Q →
          (q - (1024 # 20) <= r <= q + (1024 # 20))%Q)
       ∧ ((1024 * 1024 < q)%Q →
          (q - (1048576 # 20) <= r <= q + (1048576 # 20))%Q).
Proof.
  intros Hq Hst Hsp.
  destruct (hook_speed_shape q Hq) as (D & x & Hc1 & Hc2 & Hx & Hcase).
  destruct (add_speed_reads total x t D Hst Hc1 Hc2 Hx) as (Hmb & Hkb & Hb).
  destruct Hcase as [(Hlt & Heq & Hbd)|[(Hlt & Hle & Heq & Hbd)|(Hle & Heq & Hbd)]];
    rewrite Heq in Hsp.
  - exists (x * 1024 * 1024)%Q. split; [by apply Hmb|].
    assert (Hd : (q / (1024 * 1024) * (1024 * 1024) == q)%Q) by (field; lra).
    split; [|split]; intros; lra.
  - exists (x * 1024)%Q. split; [by apply Hkb|].
    assert (Hd : (q / 1024 * 1024 == q)%Q) by (field; lra).
    split; [|split]; intros; lra.
  - exists x. split; [by apply Hb|]. split; [|split]; intros; lra.
Qed.

Lemma hook_speed_read_back_witness :
  ∃ r, add_speed 0 (Scenarios.task "a" ACTIVE 10 "2.5 MB/s") = Ok (0 + r)%Q
       ∧ (2609152 - (1048576 # 20) <= r <= 2609152 + (1048576 # 20))%Q.
Proof.
  destruct (hook_speed_read_back 2609152 0 (Scenarios.task "a" ACTIVE 10 "2.5 MB/s"))
    as (r & Hr & _ & _ & Hb); [reflexivity|reflexivity|by vm_compute|].
  exists r. split; [exact Hr|]. apply Hb. reflexivity.
Defined.

Lemma sum_bytes_hook_speeds (tasks : list DownloadTask) (total : Q) :
  Forall (λ t, speed t = "" ∨ ∃ q, (0 < q)%Q ∧ speed t = hook_speed_str q) tasks →
  ∃ b, sum_bytes tasks total = Ok b.
Proof.
  intros Hall. revert total. induction Hall as [|t tasks Ht _ IH]; intros total.
  { by eexists. }
  cbn [sum_bytes].
  assert (∃ b, add_speed total t = Ok b) as [b ->].
  { destruct (decide (status t = ACTIVE)) as [Hst|Hst].
    - destruct Ht as [Hemp|(q & Hq & Hsp)].
      + unfold add_speed. rewrite Hemp. cbn. rewrite orb_true_r. by eexists.
      + destruct (hook_speed_shape q Hq) as (D & x & Hc1 & Hc2 & Hx & Hcase).
        destruct (add_speed_reads total x t D Hst Hc1 Hc2 Hx) as (Hmb & Hkb & Hb).
        destruct Hcase as [(_ & Heq & _)|[(_ & _ & Heq & _)|(_ & Heq & _)]];
          rewrite Heq in Hsp; eexists; eauto.
    - unfold add_speed, has_status. rewrite bool_decide_false by done. by eexists. }
  cbn. apply IH.
Qed.

(** X24: when every task's speed is empty or a string the hook formatted
    for a positive speed, [_sum_speeds] does not raise, and
    [_notify_aggregate_update] hands an aggregate to the callback for any
    non-empty registry. *)
Theorem aggregate_accepts_hook_speeds (tasks : list DownloadTask) :
  Forall (λ t, speed t = "" ∨ ∃ q, (0 < q)%Q ∧ speed t = hook_speed_str q) tasks →
  (∃ s, _sum_speeds tasks = Ok s)
  ∧ (tasks ≠ [] → ∃ a, aggregate tasks = Ok (Some a)).
Proof.
  intros Hall. destruct (sum_bytes_hook_speeds tasks 0%Q Hall) as [b Hb].
  assert (Hs : _sum_speeds tasks = Ok (format_speed b)).
  { unfold _sum_speeds. by rewrite Hb. }
  split; [by eexists|]. intros Hne. destruct tasks as [|t tasks]; [done|].
  unfold aggregate. rewrite Hs. by eexists.
Qed.

Lemma aggregate_accepts_hook_speeds_witness :
  ∃ a, aggregate HookScenarios.hook_made = Ok (Some a).
Proof.
  apply (aggregate_accepts_hook_speeds HookScenarios.hook_made); [|discriminate].
  constructor; [|constructor; [|constructor; [|constructor]]].
  - right. exists 2609152%Q. split; reflexivity.
  - right. exists 1536%Q. split; reflexivity.
  - by left.
Defined.

(** *** Remaining time *)





End HookFacts.

(** * Properties of the playlist download of the main window *)

Module AppFacts.
Import History Manager App HistoryMore ManagerMore.









Lemma entries_by_id_lookup (entries : option (list PlaylistItem)) (vid : string) :
  is_Some (entries_by_id entries !! vid) ↔ vid ∈ e_video_id <$> default [] entries.
Proof.
  unfold entries_by_id.
  assert (H : ∀ es (m : gmap string PlaylistItem),
    is_Some (fold_left (λ m e, <[e_video_id e := e]> m) es m !! vid)
    ↔ vid ∈ e_video_id <$> es ∨ is_Some (m !! vid)).
  { induction es as [|e es IH]; intros m.
    - cbn. rewrite elem_of_nil. tauto.
    - cbn [fold_left fmap list_fmap]. rewrite IH, elem_of_cons.
      destruct (decide (vid = e_video_id e)) as [->|Hne].
      + rewrite lookup_insert_eq. split; [|intros _; right; by eexists]. intros _. by left; left.
      + rewrite lookup_insert_ne by done. tauto. }
  rewrite H, lookup_empty. split; [intros [?|[? ?]]; done|by left].
Qed.

Lemma add_task_ids (m : gmap string PlaylistItem) (fmt q : string) (ids : list string)
    (acc : list DownloadTask) :
  task_id <$> fold_left (add_task m fmt q) ids acc
  = ((task_id <$> acc) ++ filter (λ vid, is_Some (m !! vid)) ids)%list.
Proof.
  revert acc. induction ids as [|vid ids IH]; intros acc.
  - cbn. by rewrite app_nil_r.
  - cbn [fold_left]. rewrite IH. unfold add_task.
    destruct (m !! vid) as [e|] eqn:He.
    + rewrite filter_cons_True by (by rewrite He). rewrite fmap_app. cbn.
      by rewrite <- app_assoc.
    + rewrite filter_cons_False; [done|]. rewrite He. by intros [? ?].
Qed.

Lemma start_compare_download (self : App) (info : VideoInfo) (p : string)
    (ids : list string) (fmt q : string) :
  _is_downloading self = false → _current_video_info self = Some info →
  vi_playlist_id info = Some p → p ≠ "" →
  _start_playlist_download self ids true fmt q
  = match get_new_videos (_history self) p ids with
    | [] => self
    | _ =>
        {| _is_downloading := true;
           _current_video_info := _current_video_info self;
           _playlist_dialog := _playlist_dialog self;
           _entries_map := entries_by_id (vi_entries info);
           _history := _history self;
           _download_manager :=
             Some (submit_tasks (Manager.__init__ 4)
                     (fold_left (add_task (entries_by_id (vi_entries info)) fmt q)
                        (get_new_videos (_history self) p ids) [])) |}
    end.
Proof.
  intros Hidle Hinfo Hpid Hp. unfold _start_playlist_download.
  rewrite Hidle, Hinfo, Hpid, (truthy_Some p Hp). cbn [andb default]. done.
Qed.

(** X27: a compare download submits only what is new. For an idle window
    showing a playlist with an id, [_start_playlist_download] with
    [compare_download] does nothing when every selected id is already
    recorded under the playlist; otherwise it marks the window as
    downloading, leaves the ledger as it is, ignores further download
    requests, and hands a new pool of 4 threads the selected ids that are
    not recorded and have an entry, in selection order. *)
Theorem compare_download_submits_new_only (self : App) (info : VideoInfo) (p : string)
    (ids : list string) (fmt q : string) :
  _is_downloading self = false → _current_video_info self = Some info →
  vi_playlist_id info = Some p → p ≠ "" →
  (get_new_videos (_history self) p ids = [] →
   _start_playlist_download self ids true fmt q = self)
  ∧ (get_new_videos (_history self) p ids ≠ [] →
     _is_downloading (_start_playlist_download self ids true fmt q) = true
     ∧ _history (_start_playlist_download self ids true fmt q) = _history self
     ∧ (∀ ids' c, _start_playlist_download (_start_playlist_download self ids true fmt q)
                    ids' c fmt q
                  = _start_playlist_download self ids true fmt q)
     ∧ ∃ m, _download_manager (_start_playlist_download self ids true fmt q) = Some m
          ∧ _executor m
            = Some {| pool_max_workers := 4;
                      work_items :=
                        filter (λ vid, vid ∈ e_video_id <$> default [] (vi_entries info))
                          (get_new_videos (_history self) p ids) |}
          ∧ is_running m = true).
Proof.
  intros Hidle Hinfo Hpid Hp.
  rewrite (start_compare_download self info p ids fmt q Hidle Hinfo Hpid Hp).
  destruct (get_new_videos (_history self) p ids) as [|vid todo] eqn:Htodo.
  { split; [done|]. intros H. by destruct H. }
  split; [done|]. intros _. cbn [_is_downloading _history _download_manager].
  split; [done|]. split; [done|]. split; [done|].
  rewrite <- Htodo. clear Htodo.
  eexists. split; [done|]. split.
  - unfold submit_tasks. rewrite submit_loop_executor, add_task_ids.
    cbn [_executor fmap option_fmap option_map pool_max_workers work_items
           Manager.__init__ _max_workers list_fmap app].
    change (Z.min (Z.max 1 4) 8) with 4%Z. f_equal. f_equal.
    apply list_filter_iff. intros x. apply entries_by_id_lookup.
  - unfold is_running, submit_tasks. by rewrite WorkerMore.submit_loop_running.
Qed.

(** X27 after [b] was fetched: of [a], [b], [c] and the unknown [d], the
    pool gets [a] and [c]. *)
Lemma compare_download_submits_new_only_witness :
  work_items <$>
    (_download_manager
       (_start_playlist_download
          (_playlist_download_complete
             (handle_updates AppScenarios.opened AppScenarios.three_videos
                [(Scenarios.task "b" COMPLETED 100 "", "t1")]))
          ["a"; "b"; "c"; "d"] true "mp3" "best") ≫= _executor)
  = Some ["a"; "c"].
Proof.
  destruct (proj2 (compare_download_submits_new_only
                     (_playlist_download_complete
                        (handle_updates AppScenarios.opened AppScenarios.three_videos
                           [(Scenarios.task "b" COMPLETED 100 "", "t1")]))
                     AppScenarios.three_videos "PL" ["a"; "b"; "c"; "d"] "mp3" "best"
                     eq_refl eq_refl eq_refl ltac:(done)))
    as (_ & _ & _ & m & -> & Hex & _); [by vm_compute|].
  cbn [mbind option_bind]. rewrite Hex. by vm_compute.
Defined.

End AppFacts.
